(** * nvdjson: the NVD JSON feed adapter of nvdtools (cvefeed/nvdjson/interfaces.go)

    A shallow embedding of the vulnerability-record adapter, of the
    configuration-node adapter with its leaf matcher [MatchPlatform], and of
    the version comparator [smartVerCmp], followed by the properties of the
    specification, each stated against these definitions. *)

From Stdlib Require Import String Ascii List ZArith NArith Arith Bool Lia PrimFloat.
Import ListNotations.

Local Open Scope string_scope.
Local Open Scope list_scope.

(** ** Go strings

    A Go string is a sequence of bytes: [string] here, one [ascii] per byte.
    [len s] is [String.length s]; the two slicing forms used by the source are
    [s[:n]] and [s[n:]].  Go panics when [n > len s]; [parseVerParts_bounds]
    below shows the comparator never slices out of range, so both are total
    here. *)

Module GoString.

(** [s[:n]] *)
Fixpoint slice_to (n : nat) (s : string) : string :=
  match n, s with
  | S n', String c s' => String c (slice_to n' s')
  | _, _ => EmptyString
  end.

(** [s[n:]] *)
Fixpoint slice_from (n : nat) (s : string) : string :=
  match n, s with
  | S n', String _ s' => slice_from n' s'
  | _, _ => s
  end.

(** [len s] *)
Definition len (s : string) : nat := String.length s.

Definition byte (c : ascii) : nat := nat_of_ascii c.
Arguments byte c%_char.

(** [strings.Compare a b]: bytewise lexicographic order, result in {-1, 0, 1}. *)
Fixpoint Compare (a b : string) : Z :=
  match a, b with
  | EmptyString, EmptyString => 0%Z
  | EmptyString, String _ _ => (-1)%Z
  | String _ _, EmptyString => 1%Z
  | String x a', String y b' =>
      if (byte x <? byte y)%nat then (-1)%Z
      else if (byte y <? byte x)%nat then 1%Z
      else Compare a' b'
  end.

(** [strings.IndexFunc s f]: index of the first position satisfying [f], [None]
    for Go's [-1].  Go applies [f] to the runes of [s]; the only predicate the
    source passes accepts ASCII code points alone, and in UTF-8 a byte below
    128 is always a rune of its own, so scanning bytes finds the same index. *)
Fixpoint IndexFunc (f : ascii -> bool) (s : string) : option nat :=
  match s with
  | EmptyString => None
  | String c s' => if f c then Some 0 else option_map S (IndexFunc f s')
  end.

End GoString.
Import GoString.

(** ** The version comparator *)

(** [v[num] < '0' || v[num] > '9'] negated. *)
Definition isDigit (c : ascii) : bool :=
  negb ((byte c <? byte "0")%nat || (byte "9" <? byte c)%nat).

(** The first loop of [parseVerParts]: the index at which it breaks. *)
Fixpoint digitRun (v : string) : nat :=
  match v with
  | String c v' => if isDigit c then S (digitRun v') else 0
  | EmptyString => 0
  end.

(** The function literal passed to [strings.IndexFunc]. *)
Definition isPunct (b : ascii) : bool :=
  ((byte "!" <=? byte b) && (byte b <=? byte "~") &&
   negb ((byte "/" <? byte b) && (byte b <? byte ":") ||
         (byte "@" <? byte b) && (byte b <? byte "[") ||
         (byte "`" <? byte b) && (byte b <? byte "{")))%nat.

Definition parseVerParts (v : string) : nat * nat * nat :=
  let num := digitRun v in
  if (num =? len v)%nat then (num, num, num)
  else
    match IndexFunc isPunct v with
    | None => (num, len v, len v)
    | Some skip => (num, skip, skip + 1)
    end.

(** The [for] loop of [smartVerCmp].  [Some r]: the loop executed
    [return r]; [None]: the loop condition failed.  Every iteration shortens
    [s1], so [fuel] above [len s1] is never used up ([verLoop_fuel]). *)
Fixpoint verLoop (fuel : nat) (s1 s2 : string) : option Z :=
  match fuel with
  | O => None
  | S fuel' =>
      if ((0 <? len s1) && (0 <? len s2))%nat then
        let '(num1, cmpTo1, skip1) := parseVerParts s1 in
        let '(num2, cmpTo2, skip2) := parseVerParts s2 in
        if (num2 <? num1)%nat then Some 1%Z
        else if (num1 <? num2)%nat then Some (-1)%Z
        else
          let cmp := Compare (slice_to cmpTo1 s1) (slice_to cmpTo2 s2) in
          if negb (cmp =? 0)%Z then Some cmp
          else verLoop fuel' (slice_from skip1 s1) (slice_from skip2 s2)
      else None
  end.

Definition smartVerCmp (v1 v2 : string) : Z :=
  match verLoop (S (len v1)) v1 v2 with
  | Some r => r
  | None =>
      (* everything is equal so far, the longest wins *)
      if (len v2 <? len v1)%nat then 1%Z
      else if (len v1 <? len v2)%nat then (-1)%Z
      else 0%Z
  end.

(** *** The specification's reading of a version part

    The specification reads the leading maximal run of decimal digits as an
    unsigned integer, an absent run as 0. *)






(** ** Go pointers, panics and the parser log

    A Go pointer is an [option]: [None] is [nil], and dereferencing [nil]
    panics.  Besides panicking, the only effect of the package is to call the
    external parser [wfn.Parse]; a computation threads the log of the strings
    handed to it, oldest first, so that the number of parses can be counted. *)

Inductive outcome (A : Type) : Type :=
| Ok (a : A)
| Panic.
Arguments Ok {A} a.
Arguments Panic {A}.

Definition Go (A : Type) : Type := list string -> outcome A * list string.

Definition ret {A : Type} (a : A) : Go A := fun tr => (Ok a, tr).

Definition bind {A B : Type} (c : Go A) (k : A -> Go B) : Go B :=
  fun tr =>
    match c tr with
    | (Ok a, tr') => k a tr'
    | (Panic, tr') => (Panic, tr')
    end.

(** [*p] *)
Definition deref {A : Type} (p : option A) : Go A :=
  match p with
  | Some a => ret a
  | None => fun tr => (Panic, tr)
  end.

Declare Scope go_scope.
Delimit Scope go_scope with go.
Notation "x <- c ;; k" := (bind c (fun x => k))
  (at level 61, c at next level, right associativity) : go_scope.
Notation "' pat <- c ;; k" := (bind c (fun x => match x with pat => k end))
  (at level 61, pat pattern, c at next level, right associativity) : go_scope.
Local Open Scope go_scope.

(** A [for ... range] loop that fills one slot per element. *)
Fixpoint mapM {A B : Type} (f : A -> Go B) (l : list A) : Go (list B) :=
  match l with
  | [] => ret []
  | a :: l' => b <- f a ;; bs <- mapM f l' ;; ret (b :: bs)
  end.

(** The value and the parser log of a computation started on an empty log. *)
Definition value {A : Type} (c : Go A) : outcome A := fst (c []).
Definition parses {A : Type} (c : Go A) : list string := snd (c []).

(** ** Package wfn (consumed)

    The well-formed-name package is not part of these sources.  Its attribute
    record is the one of the CPE naming scheme; the adapter reads and writes
    the [Version] field alone.  The constants and functions the adapter calls
    are the fields of [Package]: any implementation with two distinct
    constants may be plugged in. *)

Module wfn.

Record Attributes : Type := {
  Part : string;
  Vendor : string;
  Product : string;
  Version : string;
  Update : string;
  Edition : string;
  SWEdition : string;
  TargetSW : string;
  TargetHW : string;
  Other : string;
  Language : string
}.

(** [a.Version = v] *)
Definition set_Version (v : string) (a : Attributes) : Attributes :=
  {| Part := Part a; Vendor := Vendor a; Product := Product a; Version := v;
     Update := Update a; Edition := Edition a; SWEdition := SWEdition a;
     TargetSW := TargetSW a; TargetHW := TargetHW a; Other := Other a;
     Language := Language a |}.

(** [Parse] returns [(attributes, nil)] or [(nil, error)]: [Some] or [None].
    [Match] receives two pointers. *)
Class Package : Type := {
  Any : string;
  NA : string;
  Any_neq_NA : Any <> NA;
  Parse : string -> option Attributes;
  Match : option Attributes -> option Attributes -> bool;
  StripSlashes : string -> string
}.

End wfn.

(** ** Package jsonschema (consumed)

    The feed record as decoded from JSON.  The declarations are generated
    code outside these sources; as there, every struct-valued field is a
    pointer and every slice holds pointers (the adapter compares [CVE],
    [CVEDataMeta], [Problemtype], [Impact], [BaseMetricV2], [CVSSV2] and the
    elements of [ProblemtypeData] and of the language strings with [nil]).
    Only the fields the adapter reads are kept.  Three field names are
    prefixed because Rocq has one name space for projections:
    [PT_Description] is the [Description] of a problem-type entry, and
    [V2_BaseScore], [V3_BaseScore] are the two [BaseScore]s. *)

Module jsonschema.

Record CVEJSON40LangString : Type := {
  Lang : string;
  Value : string
}.

Record CVEJSON40ProblemtypeProblemtypeData : Type := {
  PT_Description : list (option CVEJSON40LangString)
}.

Record CVEJSON40Problemtype : Type := {
  ProblemtypeData : list (option CVEJSON40ProblemtypeProblemtypeData)
}.

Record CVEJSON40Description : Type := {
  DescriptionData : list (option CVEJSON40LangString)
}.

Record CVEJSON40CVEDataMeta : Type := {
  ID : string
}.

Record CVEJSON40 : Type := {
  CVEDataMeta : option CVEJSON40CVEDataMeta;
  Description : option CVEJSON40Description;
  Problemtype : option CVEJSON40Problemtype
}.

Record CVSSV20 : Type := { V2_BaseScore : float }.
Record CVSSV30 : Type := { V3_BaseScore : float }.

Record NVDCVEFeedJSON10DefImpactBaseMetricV2 : Type := {
  CVSSV2 : option CVSSV20
}.

Record NVDCVEFeedJSON10DefImpactBaseMetricV3 : Type := {
  CVSSV3 : option CVSSV30
}.

Record NVDCVEFeedJSON10DefImpact : Type := {
  BaseMetricV2 : option NVDCVEFeedJSON10DefImpactBaseMetricV2;
  BaseMetricV3 : option NVDCVEFeedJSON10DefImpactBaseMetricV3
}.

Record NVDCVEFeedJSON10DefCPEMatch : Type := {
  Cpe22Uri : string;
  Cpe23Uri : string;
  VersionStartIncluding : string;
  VersionStartExcluding : string;
  VersionEndIncluding : string;
  VersionEndExcluding : string
}.

#[warnings="-register-all"]
Inductive NVDCVEFeedJSON10DefNode : Type := Build_Node {
  Children : list (option NVDCVEFeedJSON10DefNode);
  CPEMatch : list (option NVDCVEFeedJSON10DefCPEMatch);
  Negate : bool;
  Operator : string
}.

Record NVDCVEFeedJSON10DefConfigurations : Type := {
  Nodes : list (option NVDCVEFeedJSON10DefNode)
}.

Record NVDCVEFeedJSON10DefCVEItem : Type := {
  CVE : option CVEJSON40;
  Configurations : option NVDCVEFeedJSON10DefConfigurations;
  Impact : option NVDCVEFeedJSON10DefImpact
}.

End jsonschema.

(** ** Package nvdjson: the adapter

    [nvdcommon.LogicalTest] is an interface; its only implementation here
    is [*node], so a [LogicalTest] is a pointer to a [node].  A [nil] slice
    and an empty one are both [[]].  The field that holds the wrapped raw
    value has the name of its struct in the source ([node.node],
    [cpeMatch.cpeMatch], [cveItem.cveItem]); here it is [node_node],
    [cpeMatch_cpeMatch], [cveItem_cveItem]. *)

Import jsonschema.

#[warnings="-register-all"]
Inductive node : Type := Build_node {
  node_node : option NVDCVEFeedJSON10DefNode;
  nvdcommonChildren : list (option node);
  wfnCPEs : list (option wfn.Attributes)
}.

Definition LogicalTest : Type := option node.

Record cpeMatch : Type := {
  cpeMatch_cpeMatch : option NVDCVEFeedJSON10DefCPEMatch;
  wfname : option wfn.Attributes
}.

Record cveItem : Type := {
  cveItem_cveItem : option NVDCVEFeedJSON10DefCVEItem;
  configNodes : list LogicalTest
}.

(** The two errors [node2CPE] can return. *)
Inductive error : Type :=
| errNilNode    (* "cannot collect CPEs from nil node" *)
| errParse.     (* the error of wfn.Parse *)

(** [getLangStr]: the loop, with [s] the variable it assigns. *)
Fixpoint getLangStr_from (s : string) (lss : list (option CVEJSON40LangString)) : string :=
  match lss with
  | [] => s
  | None :: rest => getLangStr_from s rest
  | Some ls :: rest =>
      if (Lang ls =? "en")%string then Value ls
      else getLangStr_from (Value ls) rest
  end.

Definition getLangStr (lss : list (option CVEJSON40LangString)) : string :=
  getLangStr_from "" lss.

(** The loop of [ProblemTypes] over [ProblemtypeData]. *)
Fixpoint ProblemTypes_loop (cwes : list string)
    (pts : list (option CVEJSON40ProblemtypeProblemtypeData)) : list string :=
  match pts with
  | [] => cwes
  | None :: rest => ProblemTypes_loop cwes rest
  | Some pt :: rest => ProblemTypes_loop (cwes ++ [getLangStr (PT_Description pt)]) rest
  end.

(** [cpeNode.VersionStartIncluding != "" || ... || cpeNode.VersionEndExcluding != ""] *)
Definition hasBound (m : NVDCVEFeedJSON10DefCPEMatch) : bool :=
  negb (VersionStartIncluding m =? "")%string || negb (VersionStartExcluding m =? "")%string ||
  negb (VersionEndIncluding m =? "")%string || negb (VersionEndExcluding m =? "")%string.

(** The identifier string [node2CPE] hands to the parser. *)
Definition targetURI (m : NVDCVEFeedJSON10DefCPEMatch) : string :=
  let uri := Cpe23Uri m in
  if (uri =? "")%string then Cpe22Uri m else uri.

Section Adapter.

Context {W : wfn.Package}.

(** The call [wfn.Parse(uri)], logged. *)
Definition callParse (uri : string) : Go (error + wfn.Attributes) :=
  fun tr =>
    (Ok (match wfn.Parse uri with Some a => inr a | None => inl errParse end),
     tr ++ [uri]).

(** [node2CPE] returns the wrapper as it leaves it ([node.wfname] is
    assigned) next to its Go result [(attributes, error)], a sum: by the
    contract of [wfn.Parse] exactly one of the two is [nil]. *)
Definition node2CPE (node : option cpeMatch)
  : Go (option cpeMatch * (error + wfn.Attributes)) :=
  match node with
  | None => ret (None, inl errNilNode)
  | Some nd =>
      match wfname nd with
      | Some w => ret (node, inr w)
      | None =>
          raw <- deref (cpeMatch_cpeMatch nd) ;;
          r <- callParse (targetURI raw) ;;
          ret (Some {| cpeMatch_cpeMatch := cpeMatch_cpeMatch nd;
                       wfname := match r with inr a => Some a | inl _ => None end |},
               r)
      end
  end.

(** The body of the second loop of [newNode]: the slot [cpes[i]]. *)
Definition newNode_cpe (m : option NVDCVEFeedJSON10DefCPEMatch) : Go (option wfn.Attributes) :=
  '(_, r) <- node2CPE (Some {| cpeMatch_cpeMatch := m; wfname := None |}) ;;
  ret (match r with inr cpe => Some cpe | inl _ => None end).

(** The body of the first loop of [newNode]: the slot [children[i]]. *)
Definition newNode_child (child : option NVDCVEFeedJSON10DefNode) : LogicalTest :=
  Some {| node_node := child; nvdcommonChildren := []; wfnCPEs := [] |}.

(** The two [len(...) != 0] tests of [newNode] only keep an empty slice
    [nil]; both are [[]] here, so the loops run unguarded. *)
Definition newNode (json : option NVDCVEFeedJSON10DefNode) : Go LogicalTest :=
  j <- deref json ;;
  let children := map newNode_child (Children j) in
  cpes <- mapM newNode_cpe (CPEMatch j) ;;
  ret (Some {| node_node := json; nvdcommonChildren := children; wfnCPEs := cpes |}).

Definition newCveItem (json : option NVDCVEFeedJSON10DefCVEItem) : Go (option cveItem) :=
  j <- deref json ;;
  c <- deref (Configurations j) ;;
  nodes <- mapM newNode (Nodes c) ;;
  ret (Some {| cveItem_cveItem := json; configNodes := nodes |}).

Definition CVEID (i : option cveItem) : Go string :=
  match i with
  | None => ret ""
  | Some it =>
      j <- deref (cveItem_cveItem it) ;;
      cve <- deref (CVE j) ;;
      meta <- deref (CVEDataMeta cve) ;;
      ret (ID meta)
  end.

Definition Config (i : option cveItem) : Go (list LogicalTest) :=
  match i with
  | None => ret []
  | Some it => ret (configNodes it)
  end.

Definition ProblemTypes (i : option cveItem) : Go (list string) :=
  it <- deref i ;;
  j <- deref (cveItem_cveItem it) ;;
  match CVE j with
  | None => ret []
  | Some cve =>
      match CVEDataMeta cve with
      | None => ret []
      | Some meta =>
          if (ID meta =? "")%string then ret []
          else
            match Problemtype cve with
            | Some p => ret (ProblemTypes_loop [] (ProblemtypeData p))
            | None => ret []
            end
      end
  end.

Definition Description (i : option cveItem) : Go string :=
  it <- deref i ;;
  j <- deref (cveItem_cveItem it) ;;
  cve <- deref (CVE j) ;;
  d <- deref (jsonschema.Description cve) ;;
  match DescriptionData d with
  | dsc :: _ => ls <- deref dsc ;; ret (Value ls)
  | [] => ret ""
  end.

Definition CVSS20base (i : option cveItem) : Go float :=
  it <- deref i ;;
  j <- deref (cveItem_cveItem it) ;;
  match Impact j with
  | Some im =>
      match BaseMetricV2 im with
      | Some bm =>
          match CVSSV2 bm with
          | Some c => ret (V2_BaseScore c)
          | None => ret 0%float
          end
      | None => ret 0%float
      end
  | None => ret 0%float
  end.

Definition CVSS30base (i : option cveItem) : Go float :=
  it <- deref i ;;
  j <- deref (cveItem_cveItem it) ;;
  match Impact j with
  | Some im =>
      match BaseMetricV3 im with
      | Some bm =>
          match CVSSV3 bm with
          | Some c => ret (V3_BaseScore c)
          | None => ret 0%float
          end
      | None => ret 0%float
      end
  | None => ret 0%float
  end.

Definition LogicalOperator (n : option node) : Go string :=
  match n with
  | None => ret ""
  | Some nd => j <- deref (node_node nd) ;; ret (Operator j)
  end.

Definition NegateIfNeeded (n : option node) (b : bool) : Go bool :=
  match n with
  | None => ret b
  | Some nd =>
      j <- deref (node_node nd) ;;
      if negb (Negate j) then ret b else ret (negb b)
  end.

Definition InnerTests (n : option node) : Go (list LogicalTest) :=
  match n with
  | None => ret []
  | Some nd => ret (nvdcommonChildren nd)
  end.

Definition CPEs (n : option node) : Go (list (option wfn.Attributes)) :=
  match n with
  | None => ret []
  | Some nd => ret (wfnCPEs nd)
  end.

(** The four bound tests of [MatchPlatform], in the order of the source;
    [true] when one of them executes [continue]. *)
Definition boundFails (m : NVDCVEFeedJSON10DefCPEMatch) (ver : string) : bool :=
  if negb (VersionStartIncluding m =? "")%string && (smartVerCmp ver (VersionStartIncluding m) <? 0)%Z
  then true
  else if negb (VersionStartExcluding m =? "")%string && (smartVerCmp ver (VersionStartExcluding m) <=? 0)%Z
  then true
  else if negb (VersionEndIncluding m =? "")%string && (smartVerCmp ver (VersionEndIncluding m) >? 0)%Z
  then true
  else if negb (VersionEndExcluding m =? "")%string && (smartVerCmp ver (VersionEndExcluding m) >=? 0)%Z
  then true
  else false.

(** The loop of [MatchPlatform] over [n.node.CPEMatch].  Falling to
    [continue_] is the source's [continue]; [ret b] is [return b].  The
    attributes [cpe] were allocated by the parse of this very iteration (the
    wrapper handed to [node2CPE] is new, so its cache is empty), hence the
    assignment [cpe.Version = wfn.Any] is seen by nothing else. *)
Fixpoint MatchPlatform_loop (rules : list (option NVDCVEFeedJSON10DefCPEMatch))
    (platform : option wfn.Attributes) (requireVersion : bool) : Go bool :=
  match rules with
  | [] => ret false
  | cpeNode :: rest =>
      let continue_ := MatchPlatform_loop rest platform requireVersion in
      '(_, r) <- node2CPE (Some {| cpeMatch_cpeMatch := cpeNode; wfname := None |}) ;;
      match r with
      | inl _ => continue_
      | inr cpe =>
          m <- deref cpeNode ;;
          let after_version (cpe : wfn.Attributes) : Go bool :=
            if wfn.Match (Some cpe) platform then
              p <- deref platform ;;
              if (wfn.Version p =? wfn.Any)%string || (wfn.Version p =? wfn.NA)%string then ret true
              else if negb (hasBound m) then ret true
              else if (wfn.Version cpe =? wfn.NA)%string then ret false
              else
                let ver := wfn.StripSlashes (wfn.Version p) in
                if boundFails m ver then continue_ else ret true
            else continue_
          in
          if hasBound m then after_version (wfn.set_Version wfn.Any cpe)
          else if requireVersion && (wfn.Version cpe =? wfn.Any)%string then continue_
          else after_version cpe
      end
  end.

Definition MatchPlatform (n : option node) (platform : option wfn.Attributes)
    (requireVersion : bool) : Go bool :=
  match n with
  | None => ret false
  | Some nd =>
      j <- deref (node_node nd) ;;
      MatchPlatform_loop (CPEMatch j) platform requireVersion
  end.

End Adapter.

(** ** The specification's wording, as definitions

    Each definition below follows a sentence of the specification, to be
    compared with the function of the source it speaks about. *)

(** "version >= startIncluding, version > startExcluding, version <=
    endIncluding, version < endExcluding, all present bounds ANDed". *)
Definition boundsPass (m : NVDCVEFeedJSON10DefCPEMatch) (ver : string) : bool :=
  ((VersionStartIncluding m =? "")%string || (0 <=? smartVerCmp ver (VersionStartIncluding m))%Z) &&
  ((VersionStartExcluding m =? "")%string || (0 <? smartVerCmp ver (VersionStartExcluding m))%Z) &&
  ((VersionEndIncluding m =? "")%string || (smartVerCmp ver (VersionEndIncluding m) <=? 0)%Z) &&
  ((VersionEndExcluding m =? "")%string || (smartVerCmp ver (VersionEndExcluding m) <? 0)%Z).

(** The language variants that are present, in order. *)
Definition variants (lss : list (option CVEJSON40LangString)) : list CVEJSON40LangString :=
  flat_map (fun ls => match ls with Some l => [l] | None => [] end) lss.

(** The first English variant, if any. *)
Definition english (lss : list (option CVEJSON40LangString)) : option CVEJSON40LangString :=
  find (fun l => (Lang l =? "en")%string) (variants lss).

(** "preferring the English-language description ..., otherwise falling back
    to the first available". *)
Definition englishOrFirst (lss : list (option CVEJSON40LangString)) : string :=
  match english lss with
  | Some l => Value l
  | None => match variants lss with l :: _ => Value l | [] => "" end
  end.

(** What the loop of [getLangStr] leaves instead: the last variant. *)
Definition englishOrLast (lss : list (option CVEJSON40LangString)) : string :=
  match english lss with
  | Some l => Value l
  | None => match rev (variants lss) with l :: _ => Value l | [] => "" end
  end.

(** The classification entries that are present, in order. *)
Definition entries (pts : list (option CVEJSON40ProblemtypeProblemtypeData))
  : list CVEJSON40ProblemtypeProblemtypeData :=
  flat_map (fun pt => match pt with Some p => [p] | None => [] end) pts.

(** "entries that failed to resolve are simply omitted". *)
Definition resolvedOnly {W : wfn.Package}
    (rules : list NVDCVEFeedJSON10DefCPEMatch) : list (option wfn.Attributes) :=
  flat_map (fun m => match wfn.Parse (targetURI m) with
                     | Some a => [Some a]
                     | None => []
                     end) rules.

(** What [newNode] stores instead: one slot per rule, [nil] where the parse
    failed. *)
Definition resolvedSlots {W : wfn.Package}
    (rules : list NVDCVEFeedJSON10DefCPEMatch) : list (option wfn.Attributes) :=
  map (fun m => wfn.Parse (targetURI m)) rules.

(** "whose CVE section or CVE metadata is absent, or whose record identifier
    string is empty". *)
Definition lacksIdentity (j : NVDCVEFeedJSON10DefCVEItem) : Prop :=
  CVE j = None \/
  exists cve, CVE j = Some cve /\
    (CVEDataMeta cve = None \/
     exists meta, CVEDataMeta cve = Some meta /\ ID meta = "").

(** ** An implementation of package wfn for concrete runs *)

Module WfnModel.

(** Modelled from the spec: the constants ANY and NA, "distinguished
    attribute values"; the strings are those of the CPE scheme's well-formed
    names (the empty string and a hyphen). *)
Definition Any : string := "".
Definition NA : string := "-".

(** The fields of a string, separated by colons. *)
Fixpoint fields (s : string) : list string :=
  match s with
  | EmptyString => [EmptyString]
  | String c s' =>
      match fields s' with
      | f :: fs => if (c =? ":")%char then EmptyString :: f :: fs else String c f :: fs
      | [] => []
      end
  end.

Definition attribute (f : string) : string :=
  if (f =? "*")%string then Any else f.

(** Modelled from the spec: parseIdentifier, which "binds a raw identifier
    string into canonical attributes; fails on malformed input".  The model
    accepts the formatted-string encoding ([cpe:2.3:] and eleven fields, an
    asterisk for ANY and a hyphen for NA) without escapes, and nothing else. *)
Definition Parse (raw : string) : option wfn.Attributes :=
  match fields raw with
  | ["cpe"; "2.3"; part; vendor; product; version; update; edition;
     language; sw_edition; target_sw; target_hw; other] =>
      Some {| wfn.Part := attribute part; wfn.Vendor := attribute vendor;
              wfn.Product := attribute product; wfn.Version := attribute version;
              wfn.Update := attribute update; wfn.Edition := attribute edition;
              wfn.SWEdition := attribute sw_edition; wfn.TargetSW := attribute target_sw;
              wfn.TargetHW := attribute target_hw; wfn.Other := attribute other;
              wfn.Language := attribute language |}
  | _ => None
  end.

(** "ANY matches anything; NA matches only NA or ANY; otherwise literal
    equality". *)
Definition matchAttribute (s t : string) : bool :=
  (s =? Any)%string || (t =? Any)%string || (s =? t)%string.

(** Modelled from the spec: structuralMatch, the "attribute-wise match with
    ANY/NA wildcard semantics"; an absent identifier matches nothing. *)
Definition Match (src tgt : option wfn.Attributes) : bool :=
  match src, tgt with
  | Some a, Some b =>
      matchAttribute (wfn.Part a) (wfn.Part b) &&
      matchAttribute (wfn.Vendor a) (wfn.Vendor b) &&
      matchAttribute (wfn.Product a) (wfn.Product b) &&
      matchAttribute (wfn.Version a) (wfn.Version b) &&
      matchAttribute (wfn.Update a) (wfn.Update b) &&
      matchAttribute (wfn.Edition a) (wfn.Edition b) &&
      matchAttribute (wfn.SWEdition a) (wfn.SWEdition b) &&
      matchAttribute (wfn.TargetSW a) (wfn.TargetSW b) &&
      matchAttribute (wfn.TargetHW a) (wfn.TargetHW b) &&
      matchAttribute (wfn.Other a) (wfn.Other b) &&
      matchAttribute (wfn.Language a) (wfn.Language b)
  | _, _ => false
  end.

(** Modelled from the spec: stripEscapes, which "removes scheme-defined
    escape characters from a version string"; the escape character of the
    scheme is the backslash. *)
Fixpoint StripSlashes (s : string) : string :=
  match s with
  | EmptyString => EmptyString
  | String c s' =>
      if (c =? "\")%char then StripSlashes s' else String c (StripSlashes s')
  end.

#[global] Instance package : wfn.Package := {|
  wfn.Any := Any;
  wfn.NA := NA;
  wfn.Any_neq_NA := ltac:(discriminate);
  wfn.Parse := Parse;
  wfn.Match := Match;
  wfn.StripSlashes := StripSlashes
|}.

End WfnModel.

(** ** Sample feed data for the concrete runs *)

Module Samples.

Definition uriAnyVersion : string := "cpe:2.3:a:acme:widget:*:*:*:*:*:*:*:*".
Definition uriNAVersion : string := "cpe:2.3:a:acme:widget:-:*:*:*:*:*:*:*".
Definition uriFixed : string := "cpe:2.3:a:acme:widget:2.3.1:*:*:*:*:*:*:*".
Definition uriMalformed : string := "acme widget".

(** The identifier of [acme widget] at version [v], other attributes ANY. *)
Definition widget (v : string) : wfn.Attributes :=
  {| wfn.Part := "a"; wfn.Vendor := "acme"; wfn.Product := "widget";
     wfn.Version := v; wfn.Update := ""; wfn.Edition := "";
     wfn.SWEdition := ""; wfn.TargetSW := ""; wfn.TargetHW := "";
     wfn.Other := ""; wfn.Language := "" |}.

(** A platform: a pointer to such an identifier. *)
Definition platform (v : string) : option wfn.Attributes := Some (widget v).

(** A rule on [uri] with the bounds [si <= v], [se < v], [v <= ei], [v < ee]. *)
Definition rule (uri si se ei ee : string) : NVDCVEFeedJSON10DefCPEMatch :=
  {| Cpe22Uri := ""; Cpe23Uri := uri;
     VersionStartIncluding := si; VersionStartExcluding := se;
     VersionEndIncluding := ei; VersionEndExcluding := ee |}.

(** [2.0 <= v < 3.0] on any version of the product. *)
Definition ruleRange : NVDCVEFeedJSON10DefCPEMatch := rule uriAnyVersion "2.0" "" "" "3.0".

(** [1.0 <= v] on a target whose version is NA. *)
Definition ruleNARange : NVDCVEFeedJSON10DefCPEMatch := rule uriNAVersion "1.0" "" "" "".

(** [5.0 <= v < 6.0] on any version of the product. *)
Definition ruleRange56 : NVDCVEFeedJSON10DefCPEMatch := rule uriAnyVersion "5.0" "" "" "6.0".

(** Any version of the product, no bound. *)
Definition ruleAnyVersion : NVDCVEFeedJSON10DefCPEMatch := rule uriAnyVersion "" "" "" "".

Definition ruleFixed : NVDCVEFeedJSON10DefCPEMatch := rule uriFixed "" "" "" "".
Definition ruleMalformed : NVDCVEFeedJSON10DefCPEMatch := rule uriMalformed "" "" "" "".

(** An OR group of rules without children. *)
Definition leaf (rules : list NVDCVEFeedJSON10DefCPEMatch) : NVDCVEFeedJSON10DefNode :=
  {| Children := []; CPEMatch := map Some rules; Negate := false; Operator := "OR" |}.

(** A three-level grouping: root AND [ child OR [ grandchild ] ]. *)
Definition grandchild : NVDCVEFeedJSON10DefNode := leaf [ruleFixed].
Definition child : NVDCVEFeedJSON10DefNode :=
  {| Children := [Some grandchild]; CPEMatch := [Some ruleRange];
     Negate := false; Operator := "OR" |}.
Definition root : NVDCVEFeedJSON10DefNode :=
  {| Children := [Some child]; CPEMatch := []; Negate := false; Operator := "AND" |}.

Definition lang (l v : string) : option CVEJSON40LangString :=
  Some {| Lang := l; Value := v |}.

Definition classification : CVEJSON40Problemtype :=
  {| ProblemtypeData := [Some {| PT_Description := [lang "en" "CWE-79"] |}] |}.

(** An entry whose description comes in French and in German only. *)
Definition twoVariants : list (option CVEJSON40LangString) :=
  [lang "fr" "CWE-89"; lang "de" "CWE-79"].

(** A record whose single classification entry is [twoVariants]. *)
Definition itemTwoVariants : NVDCVEFeedJSON10DefCVEItem :=
  {| CVE := Some {| CVEDataMeta := Some {| ID := "CVE-2019-0001" |};
                    jsonschema.Description := None;
                    Problemtype :=
                      Some {| ProblemtypeData := [Some {| PT_Description := twoVariants |}] |} |};
     Configurations := Some {| Nodes := [] |}; Impact := None |}.

(** A record without its CVE section. *)
Definition itemNoCVE : NVDCVEFeedJSON10DefCVEItem :=
  {| CVE := None; Configurations := Some {| Nodes := [] |}; Impact := None |}.

(** A record with classification entries and an empty identifier. *)
Definition itemNoID : NVDCVEFeedJSON10DefCVEItem :=
  {| CVE := Some {| CVEDataMeta := Some {| ID := "" |};
                    jsonschema.Description := None;
                    Problemtype := Some classification |};
     Configurations := Some {| Nodes := [] |}; Impact := None |}.

End Samples.

(** ** Proof automation *)

(** Unfold the plumbing of a computation; use a fact about the record that
    the next dereference or test reads. *)
Ltac go_simpl := unfold value, parses, bind, ret, deref; cbn.
Ltac go_with H := rewrite H; cbn.

From Stdlib Require Import Permutation.

(** ** Rule-by-rule reading of the leaf matcher

    What [MatchPlatform] decides for one rule and a platform that is
    present, written without the loop, the log and the early returns. *)

(** The entries of a slice of pointers that are present, in order. *)
Definition somes {A : Type} (l : list (option A)) : list A :=
  flat_map (fun x => match x with Some a => [a] | None => [] end) l.

(** No entry of the slice is [nil]. *)
Definition allPresent {A : Type} (l : list (option A)) : Prop :=
  l = map Some (somes l).

(** [platform.Version == wfn.Any || platform.Version == wfn.NA] *)
Definition wildcardVersion {W : wfn.Package} (p : wfn.Attributes) : bool :=
  (wfn.Version p =? wfn.Any)%string || (wfn.Version p =? wfn.NA)%string.

Definition ruleMatches {W : wfn.Package} (p : wfn.Attributes) (requireVersion : bool)
    (m : NVDCVEFeedJSON10DefCPEMatch) : bool :=
  match wfn.Parse (targetURI m) with
  | None => false
  | Some cpe =>
      if hasBound m then
        wfn.Match (Some (wfn.set_Version wfn.Any cpe)) (Some p) &&
        (wildcardVersion p || boundsPass m (wfn.StripSlashes (wfn.Version p)))
      else
        negb (requireVersion && (wfn.Version cpe =? wfn.Any)%string) &&
        wfn.Match (Some cpe) (Some p)
  end.

(** The rules a query looks at: those up to and including the first one
    that matches. *)
Fixpoint rulesTried {W : wfn.Package} (p : wfn.Attributes) (requireVersion : bool)
    (rules : list NVDCVEFeedJSON10DefCPEMatch) : list NVDCVEFeedJSON10DefCPEMatch :=
  match rules with
  | [] => []
  | m :: rest =>
      m :: (if ruleMatches p requireVersion m then [] else rulesTried p requireVersion rest)
  end.

(** The node [newNode] returns for a raw group. *)
Definition builtNode {W : wfn.Package} (nd : NVDCVEFeedJSON10DefNode) : LogicalTest :=
  Some {| node_node := Some nd;
          nvdcommonChildren := map newNode_child (Children nd);
          wfnCPEs := resolvedSlots (somes (CPEMatch nd)) |}.

(** ** Further sample data *)

Module MoreSamples.

Import Samples.

(** A node that wraps a raw group and holds nothing else. *)
Definition wrap (json : NVDCVEFeedJSON10DefNode) : node :=
  {| node_node := Some json; nvdcommonChildren := []; wfnCPEs := [] |}.

(** A negated group. *)
Definition negated : NVDCVEFeedJSON10DefNode :=
  {| Children := []; CPEMatch := [Some ruleFixed]; Negate := true; Operator := "OR" |}.

(** A record with two top-level groups: the three-level [root], which has no
    rule of its own, and a group of a malformed and a well-formed rule. *)
Definition itemTwoRoots : NVDCVEFeedJSON10DefCVEItem :=
  {| CVE := None;
     Configurations := Some {| Nodes := [Some root; Some (leaf [ruleMalformed; ruleFixed])] |};
     Impact := None |}.

End MoreSamples.

Module RecordSamples.

Import Samples.

(** A record whose description comes first in French, then in English. *)
Definition itemFrenchFirst : NVDCVEFeedJSON10DefCVEItem :=
  {| CVE := Some {| CVEDataMeta := Some {| ID := "CVE-2019-0002" |};
                    jsonschema.Description :=
                      Some {| DescriptionData := [lang "fr" "Debordement de tampon";
                                                  lang "en" "Buffer overflow"] |};
                    Problemtype := None |};
     Configurations := Some {| Nodes := [] |}; Impact := None |}.

(** A group whose second rule entry is [nil]. *)
Definition groupNilRule : NVDCVEFeedJSON10DefNode :=
  {| Children := []; CPEMatch := [Some ruleRange; None]; Negate := false; Operator := "OR" |}.

End RecordSamples.

(** ** Properties of the version comparator *)

Lemma isDigit_range (c : ascii) :
  isDigit c = true <-> (48 <= byte c <= 57)%nat.
Proof.
  unfold isDigit. change (byte "0") with 48%nat. change (byte "9") with 57%nat.
  rewrite negb_true_iff, orb_false_iff, !Nat.ltb_ge. lia.
Qed.

Lemma isPunct_digit (c : ascii) : isDigit c = true -> isPunct c = false.
Proof.
  intros H%isDigit_range. unfold isPunct.
  change (byte "/") with 47%nat. change (byte ":") with 58%nat.
  destruct (47 <? byte c)%nat eqn:E1; [| apply Nat.ltb_ge in E1; lia].
  destruct (byte c <? 58)%nat eqn:E2; [| apply Nat.ltb_ge in E2; lia].
  cbn. now rewrite andb_false_r.
Qed.

Lemma digitRun_le_len (v : string) : (digitRun v <= len v)%nat.
Proof.
  induction v as [| c v IH]; cbn; [lia |].
  destruct (isDigit c); cbn; unfold len in *; lia.
Qed.

Lemma IndexFunc_lt_len (f : ascii -> bool) (s : string) (i : nat) :
  IndexFunc f s = Some i -> (i < len s)%nat.
Proof.
  revert i. induction s as [| c s IH]; cbn; intros i H; [discriminate |].
  destruct (f c).
  - injection H as <-. unfold len; cbn; lia.
  - destruct (IndexFunc f s) as [j |]; cbn in H; [| discriminate].
    injection H as <-. specialize (IH j eq_refl). unfold len in *; cbn; lia.
Qed.

Lemma IndexFunc_isPunct_ge_digitRun (v : string) (i : nat) :
  IndexFunc isPunct v = Some i -> (digitRun v <= i)%nat.
Proof.
  revert i. induction v as [| c v IH]; cbn; intros i H; [lia |].
  destruct (isDigit c) eqn:D; [| lia].
  rewrite (isPunct_digit _ D) in H.
  destruct (IndexFunc isPunct v) as [j |]; cbn in H; [| discriminate].
  injection H as <-. specialize (IH j eq_refl). lia.
Qed.

(** The three results of [parseVerParts] are ordered and within the string,
    so the slices taken by [smartVerCmp] are in range, and a non-empty string
    always advances. *)
Lemma parseVerParts_bounds (v : string) (num cmpTo skip : nat) :
  parseVerParts v = (num, cmpTo, skip) ->
  num = digitRun v /\ (num <= cmpTo <= skip)%nat /\ (skip <= len v)%nat /\
  (0 < len v -> 0 < skip)%nat.
Proof.
  unfold parseVerParts. pose proof (digitRun_le_len v) as Hle.
  destruct (digitRun v =? len v)%nat eqn:E.
  - apply Nat.eqb_eq in E. intros [= <- <- <-]. lia.
  - apply Nat.eqb_neq in E.
    destruct (IndexFunc isPunct v) as [i |] eqn:EI; intros [= <- <- <-].
    + pose proof (IndexFunc_lt_len _ _ _ EI). pose proof (IndexFunc_isPunct_ge_digitRun _ _ EI). lia.
    + lia.
Qed.

Lemma len_slice_from (n : nat) (s : string) :
  len (slice_from n s) = (len s - n)%nat.
Proof.
  revert s. induction n as [| n IH]; intros [| c s]; cbn; try reflexivity.
  unfold len in *; cbn. apply IH.
Qed.

(** Fuel above the length of the first string is never exhausted: the loop
    gives the same answer for every such amount. *)
Lemma verLoop_fuel (fuel fuel' : nat) (s1 s2 : string) :
  (len s1 < fuel)%nat -> (len s1 < fuel')%nat ->
  verLoop fuel s1 s2 = verLoop fuel' s1 s2.
Proof.
  revert fuel' s1 s2. induction fuel as [| fuel IH]; intros fuel' s1 s2 H H'; [lia |].
  destruct fuel' as [| fuel']; [lia |]. cbn [verLoop].
  destruct ((0 <? len s1) && (0 <? len s2))%nat eqn:E; [| reflexivity].
  apply andb_true_iff in E as [E1%Nat.ltb_lt _].
  destruct (parseVerParts s1) as [[num1 cmpTo1] skip1] eqn:P1.
  destruct (parseVerParts s2) as [[num2 cmpTo2] skip2] eqn:P2.
  apply parseVerParts_bounds in P1 as (_ & _ & Hs & Hpos). specialize (Hpos E1).
  destruct (num2 <? num1)%nat; [reflexivity |].
  destruct (num1 <? num2)%nat; [reflexivity |].
  cbv zeta. destruct (negb _); [reflexivity |].
  apply IH; rewrite len_slice_from; lia.
Qed.

(** *** Digit runs as integers *)










Example smartVerCmp_9_10 : smartVerCmp "9" "10" = (-1)%Z.
Proof. reflexivity. Qed.

Example smartVerCmp_010_20 : smartVerCmp "010" "20" = 1%Z.
Proof. reflexivity. Qed.

Example parseVerParts_doc : parseVerParts "11b.4.16-New_Year_Edition" = (2, 3, 4).
Proof. reflexivity. Qed.








(** *** Order properties of the comparator *)

Lemma Compare_refl (a : string) : Compare a a = 0%Z.
Proof.
  induction a as [| x a IH]; cbn [Compare]; [reflexivity |].
  now rewrite Nat.ltb_irrefl.
Qed.

Lemma Compare_antisym (a b : string) : Compare b a = (- Compare a b)%Z.
Proof.
  revert b. induction a as [| x a IH]; intros [| y b]; cbn [Compare]; try reflexivity.
  destruct (Nat.ltb_spec (byte x) (byte y)), (Nat.ltb_spec (byte y) (byte x));
    try reflexivity; try lia. apply IH.
Qed.

Lemma verLoop_refl (fuel : nat) (s : string) : verLoop fuel s s = None.
Proof.
  revert s. induction fuel as [| fuel IH]; intros s; cbn [verLoop]; [reflexivity |].
  destruct ((0 <? len s) && (0 <? len s))%nat; [| reflexivity].
  destruct (parseVerParts s) as [[num cmpTo] skip].
  rewrite Nat.ltb_irrefl. cbv zeta. rewrite Compare_refl. cbn. apply IH.
Qed.

Lemma verLoop_antisym (fuel : nat) (s1 s2 : string) :
  verLoop fuel s2 s1 = option_map Z.opp (verLoop fuel s1 s2).
Proof.
  revert s1 s2. induction fuel as [| fuel IH]; intros s1 s2; cbn [verLoop]; [reflexivity |].
  rewrite (andb_comm (0 <? len s2)%nat).
  destruct ((0 <? len s1) && (0 <? len s2))%nat; [| reflexivity].
  destruct (parseVerParts s1) as [[num1 cmpTo1] skip1].
  destruct (parseVerParts s2) as [[num2 cmpTo2] skip2].
  destruct (Nat.ltb_spec num1 num2), (Nat.ltb_spec num2 num1); try reflexivity; try lia.
  cbv zeta. rewrite (Compare_antisym (slice_to cmpTo1 s1)).
  destruct (Compare (slice_to cmpTo1 s1) (slice_to cmpTo2 s2)); cbn; try reflexivity.
  apply IH.
Qed.

(** X1: [smartVerCmp v v = 0]. *)
Lemma smartVerCmp_refl (v : string) : smartVerCmp v v = 0%Z.
Proof.
  unfold smartVerCmp. now rewrite verLoop_refl, Nat.ltb_irrefl.
Qed.

(** X2: [smartVerCmp b a = - smartVerCmp a b]. *)
Lemma smartVerCmp_antisym (a b : string) : smartVerCmp b a = (- smartVerCmp a b)%Z.
Proof.
  unfold smartVerCmp.
  rewrite (verLoop_fuel (S (len b)) (S (len a) + S (len b)) b a) by lia.
  rewrite (verLoop_fuel (S (len a)) (S (len a) + S (len b)) a b) by lia.
  rewrite verLoop_antisym.
  destruct (verLoop _ a b); cbn [option_map]; [reflexivity |].
  destruct (Nat.ltb_spec (len a) (len b)), (Nat.ltb_spec (len b) (len a));
    try reflexivity; lia.
Qed.

(** The remaining sample comparisons of the specification. *)
Example smartVerCmp_literal_tie_break : smartVerCmp "1.0a" "1.0b" = (-1)%Z.
Proof. reflexivity. Qed.

Example smartVerCmp_prefix :
  smartVerCmp "1.2" "1.2.0" = (-1)%Z /\ smartVerCmp "1.2" "1.2.1" = (-1)%Z.
Proof. split; reflexivity. Qed.

(** ** Further properties of the version comparator *)

(** *** The result and its sign *)

Lemma Compare_range (a b : string) :
  Compare a b = (-1)%Z \/ Compare a b = 0%Z \/ Compare a b = 1%Z.
Proof.
  revert b. induction a as [| x a IH]; intros [| y b]; cbn [Compare]; auto.
  destruct (byte x <? byte y)%nat; auto. destruct (byte y <? byte x)%nat; auto.
Qed.

(** A [return] inside the loop never returns 0. *)
Lemma verLoop_returns (fuel : nat) (s1 s2 : string) (r : Z) :
  verLoop fuel s1 s2 = Some r -> r = (-1)%Z \/ r = 1%Z.
Proof.
  revert s1 s2. induction fuel as [| fuel IH]; intros s1 s2; cbn [verLoop]; [discriminate |].
  destruct ((0 <? len s1) && (0 <? len s2))%nat; [| discriminate].
  destruct (parseVerParts s1) as [[num1 cmpTo1] skip1].
  destruct (parseVerParts s2) as [[num2 cmpTo2] skip2].
  destruct (num2 <? num1)%nat; [intros [= <-]; auto |].
  destruct (num1 <? num2)%nat; [intros [= <-]; auto |].
  cbv zeta.
  destruct (Compare_range (slice_to cmpTo1 s1) (slice_to cmpTo2 s2)) as [E | [E | E]];
    rewrite E; cbn [Z.eqb negb]; try (intros [= <-]; auto).
  apply IH.
Qed.

(** X3: The comparator answers -1, 0 or 1, as its comment promises. *)
Theorem smartVerCmp_range (v1 v2 : string) :
  smartVerCmp v1 v2 = (-1)%Z \/ smartVerCmp v1 v2 = 0%Z \/ smartVerCmp v1 v2 = 1%Z.
Proof.
  unfold smartVerCmp. destruct (verLoop _ v1 v2) as [r |] eqn:E.
  - apply verLoop_returns in E as [-> | ->]; auto.
  - destruct (len v2 <? len v1)%nat; auto. destruct (len v1 <? len v2)%nat; auto.
Qed.

(** X4: Two versions are ranked equal only when they have the same length: the
    verdict 0 comes from the final comparison of lengths alone. *)
Theorem smartVerCmp_zero_same_length (v1 v2 : string) :
  smartVerCmp v1 v2 = 0%Z -> len v1 = len v2.
Proof.
  unfold smartVerCmp. destruct (verLoop _ v1 v2) as [r |] eqn:E.
  - apply verLoop_returns in E as [-> | ->]; discriminate.
  - destruct (Nat.ltb_spec (len v2) (len v1)); [discriminate |].
    destruct (Nat.ltb_spec (len v1) (len v2)); [discriminate |]. lia.
Qed.

(** X4, witness. *)
Lemma smartVerCmp_zero_same_length_witness :
  smartVerCmp "1.2" "1-2" = 0%Z /\ len "1.2" = len "1-2".
Proof. split; [reflexivity |]. apply smartVerCmp_zero_same_length. reflexivity. Defined.

(** *** Termination of the loop *)



(** *** What [parseVerParts] returns *)

(** X7: The punctuation test, written with inverse logic in the source, accepts
    exactly the four ranges its comment lists: 33-47, 58-64, 91-96 and
    123-126. *)
Theorem isPunct_ranges (b : ascii) :
  isPunct b = true <->
  (33 <= byte b <= 47 \/ 58 <= byte b <= 64 \/ 91 <= byte b <= 96 \/ 123 <= byte b <= 126)%nat.
Proof.
  unfold isPunct.
  change (byte "!") with 33%nat. change (byte "~") with 126%nat.
  change (byte "/") with 47%nat. change (byte ":") with 58%nat.
  change (byte "@") with 64%nat. change (byte "[") with 91%nat.
  change (byte "`") with 96%nat. change (byte "{") with 123%nat.
  rewrite !andb_true_iff, negb_true_iff, !orb_false_iff, !andb_false_iff,
    !Nat.leb_le, !Nat.ltb_ge. lia.
Qed.

(** The byte at an index, [None] past the end. *)
Lemma get_IndexFunc_none (f : ascii -> bool) (s : string) :
  IndexFunc f s = None ->
  forall (i : nat) (c : ascii), String.get i s = Some c -> f c = false.
Proof.
  induction s as [| x s IH]; cbn [IndexFunc]; intros H i c Hg; [destruct i; discriminate |].
  destruct (f x) eqn:Fx; [discriminate |].
  destruct (IndexFunc f s); [discriminate |].
  destruct i as [| i]; cbn in Hg.
  - now injection Hg as <-.
  - now apply (IH eq_refl i c).
Qed.

Lemma get_IndexFunc_some (f : ascii -> bool) (s : string) (k : nat) :
  IndexFunc f s = Some k ->
  (exists c, String.get k s = Some c /\ f c = true) /\
  forall (i : nat) (c : ascii), (i < k)%nat -> String.get i s = Some c -> f c = false.
Proof.
  revert k. induction s as [| x s IH]; cbn [IndexFunc]; intros k H; [discriminate |].
  destruct (f x) eqn:Fx.
  - injection H as <-. split; [exists x; now split | intros i c Hi; lia].
  - destruct (IndexFunc f s) as [j |]; [| discriminate]. injection H as <-.
    destruct (IH j eq_refl) as [(c & Hc & Fc) Hbefore]. split.
    + exists c. now split.
    + intros [| i] c' Hi Hg; cbn in Hg.
      * now injection Hg as <-.
      * apply (Hbefore i c'); [lia | assumption].
Qed.

Lemma digitRun_all_no_punct (v : string) :
  digitRun v = len v -> IndexFunc isPunct v = None.
Proof.
  induction v as [| c v IH]; cbn [digitRun IndexFunc]; [reflexivity |].
  destruct (isDigit c) eqn:D; [| discriminate].
  intros [= H]. rewrite (isPunct_digit c D), (IH H). reflexivity.
Qed.

Lemma parseVerParts_by_punct (v : string) :
  parseVerParts v =
  match IndexFunc isPunct v with
  | Some i => (digitRun v, i, i + 1)%nat
  | None => (digitRun v, len v, len v)
  end.
Proof.
  unfold parseVerParts. destruct (Nat.eqb_spec (digitRun v) (len v)) as [E | E];
    [| reflexivity].
  now rewrite (digitRun_all_no_punct v E), E.
Qed.

(** X8: The shortcut for a string of digits agrees with the general path: in
    every case the first result is the length of the leading digit run, the
    second is the index of the first punctuation byte, or the length of the
    string when there is none, and the third is one past that byte, or the
    length again. *)
Theorem parseVerParts_shortcut_agrees (v : string) :
  parseVerParts v =
  match IndexFunc isPunct v with
  | Some i => (digitRun v, i, i + 1)%nat
  | None => (digitRun v, len v, len v)
  end.
Proof. apply parseVerParts_by_punct. Qed.

(** X9: The three results are ordered and lie within the string, so the slices
    [s[:cmpTo]] and [s[skip:]] of [smartVerCmp] are in range; the part
    compared holds no punctuation after the digit run, and a non-empty
    string always advances by at least one byte. *)
Theorem parseVerParts_in_range (v : string) (num cmpTo skip : nat) :
  parseVerParts v = (num, cmpTo, skip) ->
  (num <= cmpTo <= skip)%nat /\ (skip <= len v)%nat /\
  (0 < len v -> 0 < skip)%nat /\
  forall (i : nat) (c : ascii), (i < cmpTo)%nat -> String.get i v = Some c -> isPunct c = false.
Proof.
  intros H. destruct (parseVerParts_bounds v num cmpTo skip H) as (_ & B1 & B2 & B3).
  repeat split; try lia; try assumption.
  rewrite parseVerParts_by_punct in H.
  destruct (IndexFunc isPunct v) as [k |] eqn:E; injection H as <- <- <-.
  - apply (get_IndexFunc_some isPunct v k E).
  - intros i c _. apply (get_IndexFunc_none isPunct v E).
Qed.

(** X9, witness. *)
Lemma parseVerParts_in_range_witness :
  (2 <= 3 <= 4)%nat /\ (4 <= len "11b.4.16-New_Year_Edition")%nat /\
  (0 < len "11b.4.16-New_Year_Edition" -> 0 < 4)%nat /\
  forall (i : nat) (c : ascii), (i < 3)%nat ->
    String.get i "11b.4.16-New_Year_Edition" = Some c -> isPunct c = false.
Proof.
  apply (parseVerParts_in_range "11b.4.16-New_Year_Edition" 2 3 4). reflexivity.
Defined.

(** *** The longest wins *)

Lemma len_append (v w : string) : len (v ++ w)%string = (len v + len w)%nat.
Proof.
  unfold len. induction v as [| c v IH]; cbn; [reflexivity | now rewrite IH].
Qed.

Lemma slice_to_all (v : string) : slice_to (len v) v = v.
Proof.
  induction v as [| c v IH]; cbn; [reflexivity |]. fold (len v). now rewrite IH.
Qed.

Lemma slice_to_append (n : nat) (v w : string) :
  (n <= len v)%nat -> slice_to n (v ++ w)%string = slice_to n v.
Proof.
  revert n. induction v as [| c v IH]; intros n H.
  - unfold len in H. cbn in H. assert (n = 0%nat) as -> by lia. now destruct w.
  - destruct n as [| n]; [reflexivity |]. cbn -[len]. f_equal. apply IH.
    unfold len in *. cbn in H. lia.
Qed.

Lemma slice_to_append_more (n : nat) (v w : string) :
  (len v <= n)%nat -> slice_to n (v ++ w)%string = (v ++ slice_to (n - len v) w)%string.
Proof.
  revert n. induction v as [| c v IH]; intros n H.
  - cbn. now rewrite Nat.sub_0_r.
  - destruct n as [| n]; [unfold len in H; cbn in H; lia |].
    cbn -[len]. f_equal. replace (S n - len (String c v))%nat with (n - len v)%nat
      by (unfold len; cbn; lia).
    apply IH. unfold len in *. cbn in H. lia.
Qed.

Lemma slice_from_append (n : nat) (v w : string) :
  (n <= len v)%nat -> slice_from n (v ++ w)%string = (slice_from n v ++ w)%string.
Proof.
  revert n. induction v as [| c v IH]; intros n H.
  - unfold len in H. cbn in H. assert (n = 0%nat) as -> by lia. now destruct w.
  - destruct n as [| n]; [reflexivity |]. cbn -[len]. apply IH.
    unfold len in *. cbn in H. lia.
Qed.

Lemma slice_from_all (v : string) : slice_from (len v) v = "".
Proof.
  induction v as [| c v IH]; cbn; [reflexivity |]. exact IH.
Qed.

Lemma Compare_prefix (a b : string) :
  Compare a (a ++ b)%string = 0%Z \/ Compare a (a ++ b)%string = (-1)%Z.
Proof.
  induction a as [| x a IH]; cbn [append Compare].
  - destruct b; auto.
  - now rewrite Nat.ltb_irrefl.
Qed.

Lemma digitRun_append_le (v w : string) : (digitRun v <= digitRun (v ++ w)%string)%nat.
Proof.
  induction v as [| c v IH]; cbn [append digitRun]; [lia |].
  destruct (isDigit c); lia.
Qed.

Lemma IndexFunc_append_some (f : ascii -> bool) (v w : string) (i : nat) :
  IndexFunc f v = Some i -> IndexFunc f (v ++ w)%string = Some i.
Proof.
  revert i. induction v as [| c v IH]; cbn [append IndexFunc]; intros i H; [discriminate |].
  destruct (f c); [assumption |].
  destruct (IndexFunc f v) as [j |]; [| discriminate].
  now rewrite (IH j eq_refl).
Qed.

(** How the parts of a string relate to the parts of a longer string that
    starts with it. *)
Lemma parseVerParts_append (v w : string) (n c s n' c' s' : nat) :
  parseVerParts v = (n, c, s) ->
  parseVerParts (v ++ w)%string = (n', c', s') ->
  (n <= n')%nat /\
  ((c < len v /\ c' = c /\ s' = s)%nat \/ (c = len v /\ s = len v /\ len v <= c')%nat).
Proof.
  intros P P'.
  pose proof (parseVerParts_bounds _ _ _ _ P) as (-> & B1 & B2 & _).
  pose proof (parseVerParts_bounds _ _ _ _ P') as (-> & B1' & B2' & _).
  split; [apply digitRun_append_le |].
  rewrite parseVerParts_by_punct in P, P'.
  destruct (IndexFunc isPunct v) as [i |] eqn:E.
  - rewrite (IndexFunc_append_some isPunct v w i E) in P'.
    injection P as <- <-. injection P' as <- <-.
    left. apply IndexFunc_lt_len in E. auto.
  - injection P as <- <-. right. repeat split.
    destruct (IndexFunc isPunct (v ++ w)%string) as [j |] eqn:E'.
    + injection P' as <- <-.
      destruct (Nat.le_gt_cases (len v) j) as [L | L]; [assumption | exfalso].
      destruct (get_IndexFunc_some isPunct _ j E') as [(x & Hx & Fx) _].
      assert (String.get j v = Some x) as Hv.
      { clear - Hx L. revert j Hx L. induction v as [| y v IH]; intros j Hx L.
        - unfold len in L. cbn in L. lia.
        - destruct j as [| j]; cbn in *; [assumption |].
          apply IH; [assumption | unfold len in *; cbn in L; lia]. }
      rewrite (get_IndexFunc_none isPunct v E j x Hv) in Fx. discriminate.
    + injection P' as <- <-. rewrite len_append. lia.
Qed.

Lemma verLoop_empty (fuel : nat) (s2 : string) : verLoop fuel "" s2 = None.
Proof. destruct fuel; reflexivity. Qed.

Lemma verLoop_prefix (fuel : nat) (v w : string) :
  verLoop fuel v (v ++ w)%string = None \/ verLoop fuel v (v ++ w)%string = Some (-1)%Z.
Proof.
  revert v. induction fuel as [| fuel IH]; intros v; cbn [verLoop]; [auto |].
  destruct ((0 <? len v) && (0 <? len (v ++ w)%string))%nat; [| auto].
  destruct (parseVerParts v) as [[n c] s] eqn:P.
  destruct (parseVerParts (v ++ w)%string) as [[n' c'] s'] eqn:P'.
  destruct (parseVerParts_append v w _ _ _ _ _ _ P P') as [Hn Hc].
  destruct (Nat.ltb_spec n' n); [lia |].
  destruct (n <? n')%nat; [auto |]. cbv zeta.
  destruct Hc as [(Hlt & -> & ->) | (-> & -> & Hle)].
  - rewrite slice_to_append by lia. rewrite Compare_refl. cbn [Z.eqb negb].
    pose proof (parseVerParts_bounds _ _ _ _ P) as (_ & _ & Hs & _).
    rewrite slice_from_append by lia. apply IH.
  - rewrite slice_to_all, slice_to_append_more by assumption.
    destruct (Compare_prefix v (slice_to (c' - len v) w)) as [E | E]; rewrite E; cbn [Z.eqb negb].
    + rewrite slice_from_all. left. apply verLoop_empty.
    + auto.
Qed.

(** X5: "The longest wins": a version is ranked below every longer version that
    starts with it. *)
Theorem smartVerCmp_prefix_smaller (v w : string) :
  w <> "" -> smartVerCmp v (v ++ w)%string = (-1)%Z.
Proof.
  intros Hw. unfold smartVerCmp.
  destruct (verLoop_prefix (S (len v)) v w) as [E | E]; rewrite E; [| reflexivity].
  rewrite len_append.
  assert (0 < len w)%nat by (destruct w; [contradiction | unfold len; cbn; lia]).
  destruct (Nat.ltb_spec (len v + len w) (len v)); [lia |].
  destruct (Nat.ltb_spec (len v) (len v + len w)); [reflexivity | lia].
Qed.

(** X5, witness. *)
Lemma smartVerCmp_prefix_smaller_witness : smartVerCmp "1.2" "1.2.0" = (-1)%Z.
Proof. apply (smartVerCmp_prefix_smaller "1.2" ".0"). discriminate. Defined.

(** ** Properties of the adapter *)

Section AdapterFacts.

Context {W : wfn.Package}.

(** *** Construction *)

Lemma node2CPE_fresh (m : NVDCVEFeedJSON10DefCPEMatch) (tr : list string) :
  node2CPE (Some {| cpeMatch_cpeMatch := Some m; wfname := None |}) tr =
  (Ok (Some {| cpeMatch_cpeMatch := Some m; wfname := wfn.Parse (targetURI m) |},
       match wfn.Parse (targetURI m) with Some a => inr a | None => inl errParse end),
   tr ++ [targetURI m]).
Proof.
  unfold node2CPE, callParse. go_simpl.
  destruct (wfn.Parse (targetURI m)); reflexivity.
Qed.

(** Once a wrapper holds its attributes, [node2CPE] returns them without
    calling the parser: the cache works for a wrapper that is kept. *)
Lemma node2CPE_cached (nd : cpeMatch) (a : wfn.Attributes) (tr : list string) :
  wfname nd = Some a ->
  node2CPE (Some nd) tr = (Ok (Some nd, inr a), tr).
Proof.
  intros H. unfold node2CPE. now rewrite H.
Qed.

Lemma newNode_cpe_present (m : NVDCVEFeedJSON10DefCPEMatch) (tr : list string) :
  newNode_cpe (Some m) tr = (Ok (wfn.Parse (targetURI m)), tr ++ [targetURI m]).
Proof.
  unfold newNode_cpe, bind. rewrite node2CPE_fresh. unfold ret.
  destruct (wfn.Parse (targetURI m)); reflexivity.
Qed.

Lemma mapM_newNode_cpe (rules : list NVDCVEFeedJSON10DefCPEMatch) (tr : list string) :
  mapM newNode_cpe (map Some rules) tr =
  (Ok (resolvedSlots rules), tr ++ map targetURI rules).
Proof.
  revert tr. induction rules as [| m rules IH]; intros tr; cbn [map mapM].
  - unfold ret. now rewrite app_nil_r.
  - unfold bind at 1. rewrite newNode_cpe_present.
    unfold bind at 1. rewrite IH. unfold ret. cbn. now rewrite <- app_assoc.
Qed.

(** What [newNode] builds from a raw group whose rules are all present:
    the children are wrapped but not built, and there is one slot per rule. *)
Lemma newNode_present (json : NVDCVEFeedJSON10DefNode)
    (rules : list NVDCVEFeedJSON10DefCPEMatch) (tr : list string) :
  CPEMatch json = map Some rules ->
  newNode (Some json) tr =
  (Ok (Some {| node_node := Some json;
               nvdcommonChildren := map newNode_child (Children json);
               wfnCPEs := resolvedSlots rules |}),
   tr ++ map targetURI rules).
Proof.
  intros H. unfold newNode, deref, bind at 1, ret at 1. rewrite H.
  unfold bind. now rewrite mapM_newNode_cpe.
Qed.

(** *** The leaf matcher *)

Lemma boundFails_boundsPass (m : NVDCVEFeedJSON10DefCPEMatch) (ver : string) :
  boundFails m ver = negb (boundsPass m ver).
Proof.
  unfold boundFails, boundsPass. rewrite Z.gtb_ltb, Z.geb_leb.
  destruct (VersionStartIncluding m =? "")%string,
           (VersionStartExcluding m =? "")%string,
           (VersionEndIncluding m =? "")%string,
           (VersionEndExcluding m =? "")%string; cbn [negb andb orb];
    repeat match goal with
           | |- context [(?a <? ?b)%Z] => destruct (Z.ltb_spec a b)
           | |- context [(?a <=? ?b)%Z] => destruct (Z.leb_spec a b)
           end; cbn [negb andb orb]; try reflexivity; lia.
Qed.

(** One iteration on a rule that is present either returns, or continues
    with the rest; in both cases the parser has been called once more, on
    the rule's identifier, whatever the log held before. *)
Lemma MatchPlatform_loop_step (m : NVDCVEFeedJSON10DefCPEMatch)
    (rest : list (option NVDCVEFeedJSON10DefCPEMatch))
    (platform : option wfn.Attributes) (rv : bool) (tr : list string) :
  MatchPlatform_loop (Some m :: rest) platform rv tr =
    MatchPlatform_loop rest platform rv (tr ++ [targetURI m]) \/
  exists o, MatchPlatform_loop (Some m :: rest) platform rv tr = (o, tr ++ [targetURI m]).
Proof.
  remember (MatchPlatform_loop (Some m :: rest) platform rv tr) as r eqn:E.
  cbn [MatchPlatform_loop] in E. unfold bind at 1 in E. rewrite node2CPE_fresh in E.
  destruct (wfn.Parse (targetURI m)) as [cpe |]; [| now left].
  unfold deref, bind, ret in E.
  destruct platform as [p |];
    repeat match type of E with
           | context [if ?c then _ else _] => destruct c
           end; subst r; (now left) || (right; now eexists).
Qed.

(** A rule with a bound, a target that parses and matches structurally once
    its version is forced to ANY, against a platform at a concrete version:
    the bounds alone decide.  The version the target declared plays no part. *)
Lemma MatchPlatform_loop_bounded (m : NVDCVEFeedJSON10DefCPEMatch)
    (rest : list (option NVDCVEFeedJSON10DefCPEMatch))
    (cpe p : wfn.Attributes) (rv : bool) (tr : list string) :
  hasBound m = true ->
  wfn.Parse (targetURI m) = Some cpe ->
  wfn.Match (Some (wfn.set_Version wfn.Any cpe)) (Some p) = true ->
  wfn.Version p <> wfn.Any -> wfn.Version p <> wfn.NA ->
  MatchPlatform_loop (Some m :: rest) (Some p) rv tr =
  if boundsPass m (wfn.StripSlashes (wfn.Version p))
  then (Ok true, tr ++ [targetURI m])
  else MatchPlatform_loop rest (Some p) rv (tr ++ [targetURI m]).
Proof.
  intros Hb Hp Hm Hany Hna.
  cbn [MatchPlatform_loop]. unfold bind at 1. rewrite node2CPE_fresh, Hp.
  unfold deref, bind at 1, ret at 1. rewrite Hb, Hm.
  unfold bind, ret. cbn [negb wfn.set_Version wfn.Version].
  apply String.eqb_neq in Hany, Hna. rewrite Hany, Hna. cbn [orb].
  pose proof wfn.Any_neq_NA as HAN. apply String.eqb_neq in HAN. rewrite HAN.
  rewrite boundFails_boundsPass.
  destruct (boundsPass m _); reflexivity.
Qed.

End AdapterFacts.

(** ** The claims about the adapter *)

Section Claims.

Context {W : wfn.Package}.

Lemma newNode_then {B : Type} (json : NVDCVEFeedJSON10DefNode)
    (rules : list NVDCVEFeedJSON10DefCPEMatch) (k : LogicalTest -> Go B) (tr : list string) :
  CPEMatch json = map Some rules ->
  (n <- newNode (Some json) ;; k n) tr =
  k (Some {| node_node := Some json;
             nvdcommonChildren := map newNode_child (Children json);
             wfnCPEs := resolvedSlots rules |})
    (tr ++ map targetURI rules).
Proof.
  intros H. unfold bind. now rewrite (newNode_present json rules tr H).
Qed.

(** C1: [newNode] wraps the children of a raw group without building them.
    For every raw group whose rules are present, the node it builds exposes
    one node per child group, but each of these has no inner tests and no
    leaf identifiers, whatever the raw child holds: the grandchildren are
    not reachable through two applications of [InnerTests], and the leaf
    identifiers of the descendants are not resolved at construction. *)
Theorem newNode_children_not_built (json : NVDCVEFeedJSON10DefNode)
    (rules : list NVDCVEFeedJSON10DefCPEMatch) :
  CPEMatch json = map Some rules ->
  exists n : node,
    value (newNode (Some json)) = Ok (Some n) /\
    value (InnerTests (Some n)) = Ok (map newNode_child (Children json)) /\
    forall c : LogicalTest, In c (map newNode_child (Children json)) ->
      value (InnerTests c) = Ok [] /\ value (CPEs c) = Ok [].
Proof.
  intros H. eexists. split; [| split].
  - unfold value. now rewrite (newNode_present json rules [] H).
  - reflexivity.
  - intros c Hc. apply in_map_iff in Hc as (child & <- & _). split; reflexivity.
Qed.

(** C2: the guard [cpe.Version == wfn.NA] of [MatchPlatform] never fires.
    A rule with a bound whose target resolves with version NA has its
    version overwritten with ANY first, so against a platform at a concrete
    version that matches structurally and satisfies the bounds,
    [MatchPlatform] reports a match through that rule. *)
Theorem MatchPlatform_NA_target_range_matches (json : NVDCVEFeedJSON10DefNode)
    (m : NVDCVEFeedJSON10DefCPEMatch) (rules : list NVDCVEFeedJSON10DefCPEMatch)
    (cpe p : wfn.Attributes) (requireVersion : bool) :
  CPEMatch json = map Some (m :: rules) ->
  hasBound m = true ->
  wfn.Parse (targetURI m) = Some cpe ->
  wfn.Version cpe = wfn.NA ->
  wfn.Match (Some (wfn.set_Version wfn.Any cpe)) (Some p) = true ->
  wfn.Version p <> wfn.Any -> wfn.Version p <> wfn.NA ->
  boundsPass m (wfn.StripSlashes (wfn.Version p)) = true ->
  value (n <- newNode (Some json) ;; MatchPlatform n (Some p) requireVersion) = Ok true.
Proof.
  intros Hj Hb Hp _ Hm Hany Hna Hpass. unfold value.
  rewrite (newNode_then json (m :: rules) _ [] Hj).
  unfold MatchPlatform, deref, bind at 1, ret at 1. cbn [node_node]. rewrite Hj.
  cbn [map]. rewrite (MatchPlatform_loop_bounded m _ cpe p) by assumption.
  now rewrite Hpass.
Qed.

(** The log only grows. *)
Lemma MatchPlatform_loop_log (rules : list (option NVDCVEFeedJSON10DefCPEMatch))
    (platform : option wfn.Attributes) (rv : bool) (tr : list string) :
  exists more, snd (MatchPlatform_loop rules platform rv tr) = tr ++ more.
Proof.
  revert tr. induction rules as [| [m |] rest IH]; intros tr.
  - exists []. cbn. now rewrite app_nil_r.
  - destruct (MatchPlatform_loop_step m rest platform rv tr) as [E | [o E]]; rewrite E.
    + destruct (IH (tr ++ [targetURI m])) as [more Hm]. rewrite Hm.
      exists (targetURI m :: more). now rewrite <- app_assoc.
    + exists [targetURI m]. reflexivity.
  - exists []. cbn. now rewrite app_nil_r.
Qed.

(** C3: the parser is called again on every query.  Construction parses
    each rule of a raw group once; every later [MatchPlatform] on the node it
    built calls the parser once more on the first rule's identifier, whatever
    was resolved before: the wrapper that caches the result is made anew for
    each call and dropped. *)
Theorem MatchPlatform_parses_again (json : NVDCVEFeedJSON10DefNode)
    (m : NVDCVEFeedJSON10DefCPEMatch) (rules : list NVDCVEFeedJSON10DefCPEMatch) :
  CPEMatch json = map Some (m :: rules) ->
  exists n : node,
    newNode (Some json) [] = (Ok (Some n), map targetURI (m :: rules)) /\
    forall (platform : option wfn.Attributes) (requireVersion : bool) (tr : list string),
    exists more : list string,
      snd (MatchPlatform (Some n) platform requireVersion tr) = tr ++ targetURI m :: more.
Proof.
  intros Hj. eexists. split.
  - now rewrite (newNode_present json (m :: rules) [] Hj).
  - intros platform rv tr.
    unfold MatchPlatform, deref, bind at 1, ret at 1. cbn [node_node]. rewrite Hj. cbn [map].
    destruct (MatchPlatform_loop_step m (map Some rules) platform rv tr) as [E | [o E]]; rewrite E.
    + destruct (MatchPlatform_loop_log (map Some rules) platform rv (tr ++ [targetURI m]))
        as [more Hm].
      rewrite Hm. exists more. now rewrite <- app_assoc.
    + exists []. reflexivity.
Qed.


Lemma getLangStr_from_variants (s : string) (lss : list (option CVEJSON40LangString)) :
  getLangStr_from s lss =
  match english lss with
  | Some l => Value l
  | None => match rev (variants lss) with l :: _ => Value l | [] => s end
  end.
Proof.
  revert s. induction lss as [| [ls |] lss IH]; intros s; cbn [getLangStr_from].
  - reflexivity.
  - unfold english, variants in *. cbn [flat_map app find].
    destruct (Lang ls =? "en")%string; [reflexivity |].
    rewrite IH. destruct (find _ _); [reflexivity |].
    cbn [rev]. destruct (rev (flat_map _ lss)); reflexivity.
  - rewrite IH. reflexivity.
Qed.

Lemma getLangStr_englishOrLast (lss : list (option CVEJSON40LangString)) :
  getLangStr lss = englishOrLast lss.
Proof. apply getLangStr_from_variants. Qed.

Lemma ProblemTypes_loop_entries (cwes : list string)
    (pts : list (option CVEJSON40ProblemtypeProblemtypeData)) :
  ProblemTypes_loop cwes pts =
  cwes ++ map (fun pt => englishOrLast (PT_Description pt)) (entries pts).
Proof.
  revert cwes. induction pts as [| [pt |] pts IH]; intros cwes; cbn [ProblemTypes_loop].
  - cbn. now rewrite app_nil_r.
  - rewrite IH, getLangStr_englishOrLast. unfold entries. cbn. now rewrite <- app_assoc.
  - apply IH.
Qed.

(** C6 (as amended): for a record with an identity, [ProblemTypes] returns
    one string per classification entry that is present, in order: the value
    of the entry's first English variant when there is one, and otherwise the
    value of its last variant (the empty string for an entry without
    variants). *)
Theorem ProblemTypes_english_or_last (it : cveItem) (j : NVDCVEFeedJSON10DefCVEItem)
    (cve : CVEJSON40) (meta : CVEJSON40CVEDataMeta) (p : CVEJSON40Problemtype) :
  cveItem_cveItem it = Some j ->
  CVE j = Some cve ->
  CVEDataMeta cve = Some meta ->
  ID meta <> "" ->
  Problemtype cve = Some p ->
  value (ProblemTypes (Some it)) =
  Ok (map (fun pt => englishOrLast (PT_Description pt)) (entries (ProblemtypeData p))).
Proof.
  intros Hj Hc Hm Hid Hp. apply String.eqb_neq in Hid.
  unfold ProblemTypes. go_simpl. go_with Hj. go_with Hc. go_with Hm. go_with Hid. go_with Hp.
  now rewrite ProblemTypes_loop_entries.
Qed.

(** C7 (as amended): for every raw group whose rules are present, the node
    built by [newNode] answers [CPEs] with one slot per rule, in the order of
    the rules: the resolved identifier where the rule's identifier parses, an
    absent ([nil]) slot where it does not. *)
Theorem CPEs_one_slot_per_rule (json : NVDCVEFeedJSON10DefNode)
    (rules : list NVDCVEFeedJSON10DefCPEMatch) :
  CPEMatch json = map Some rules ->
  value (n <- newNode (Some json) ;; CPEs n) = Ok (resolvedSlots rules) /\
  length (resolvedSlots rules) = length rules.
Proof.
  intros Hj. split.
  - unfold value. now rewrite (newNode_then json rules _ [] Hj).
  - unfold resolvedSlots. apply length_map.
Qed.

(** C8: [CVEID] and [Description] dereference the CVE section without a
    check.  On a record whose CVE section or identity metadata is absent
    [CVEID] panics, and on one whose CVE section or description section is
    absent [Description] panics, where the other accessors return their
    default. *)
Theorem CVEID_Description_panic (it : cveItem) (j : NVDCVEFeedJSON10DefCVEItem) :
  cveItem_cveItem it = Some j ->
  ((CVE j = None \/ exists cve, CVE j = Some cve /\ CVEDataMeta cve = None) ->
   value (CVEID (Some it)) = Panic) /\
  ((CVE j = None \/ exists cve, CVE j = Some cve /\ jsonschema.Description cve = None) ->
   value (Description (Some it)) = Panic).
Proof.
  intros Hj. split; intros [Hc | (cve & Hc & Hm)];
    unfold CVEID, Description; go_simpl; go_with Hj; go_with Hc;
    try go_with Hm; reflexivity.
Qed.

(** The accessors of C8 that do check: the two scores default to 0.0. *)
Lemma scores_default (it : cveItem) (j : NVDCVEFeedJSON10DefCVEItem) :
  cveItem_cveItem it = Some j -> Impact j = None ->
  value (CVSS20base (Some it)) = Ok 0%float /\ value (CVSS30base (Some it)) = Ok 0%float.
Proof.
  intros Hj Hi. unfold CVSS20base, CVSS30base. go_simpl. go_with Hj. go_with Hi.
  split; reflexivity.
Qed.

(** C9: every accessor of a configuration node, called on an absent
    ([nil]) node, returns the neutral value of its type without panicking
    and without calling the parser: the empty string, the argument
    unchanged, the empty sequence twice, and [false]. *)
Theorem nil_node_neutral (b : bool) (platform : option wfn.Attributes) (requireVersion : bool) :
  LogicalOperator None = ret "" /\
  NegateIfNeeded None b = ret b /\
  InnerTests None = ret [] /\
  CPEs None = ret [] /\
  MatchPlatform None platform requireVersion = ret false.
Proof. repeat split. Qed.

(** C10: [ProblemTypes] is gated on the identity of the record.  When the
    CVE section or its metadata is absent, or the identifier is the empty
    string, it returns the empty list, whatever classification entries the
    record holds. *)
Theorem ProblemTypes_gated_on_identity (it : cveItem) (j : NVDCVEFeedJSON10DefCVEItem) :
  cveItem_cveItem it = Some j ->
  lacksIdentity j ->
  value (ProblemTypes (Some it)) = Ok [].
Proof.
  intros Hj [Hc | (cve & Hc & [Hm | (meta & Hm & Hid)])];
    unfold ProblemTypes; go_simpl; go_with Hj; go_with Hc; try go_with Hm;
    try go_with Hid; reflexivity.
Qed.

End Claims.

(** ** The bounds of a range rule *)

Import Samples.



(** ** Concrete runs

    The general statements above, taken at the sample feed data with the
    model of package wfn. *)

(** C1, witness: the sample root has one child group, which holds a rule and
    a child group of its own; the node built for the child exposes neither. *)
Lemma newNode_children_not_built_witness :
  Children child = [Some grandchild] /\ CPEMatch child = [Some ruleRange] /\
  exists n : node,
    value (newNode (Some root)) = Ok (Some n) /\
    value (InnerTests (Some n)) = Ok [newNode_child (Some child)] /\
    value (InnerTests (newNode_child (Some child))) = Ok [] /\
    value (CPEs (newNode_child (Some child))) = Ok [].
Proof.
  split; [reflexivity | split; [reflexivity |]].
  destruct (newNode_children_not_built (W := WfnModel.package) root [] eq_refl)
    as (n & H1 & H2 & H3).
  exists n. split; [exact H1 | split; [exact H2 |]].
  apply (H3 (newNode_child (Some child))). left. reflexivity.
Defined.

(** C1 at the failing input, evaluated: two applications of [InnerTests]
    from the root reach no grandchild. *)
Example InnerTests_twice_root :
  value (n <- newNode (Some root) ;;
         cs <- InnerTests n ;;
         mapM InnerTests cs) = Ok [[]].
Proof. reflexivity. Qed.

(** C2, witness: the rule [1.0 <= v] on a target of version NA matches the
    platform at version "2.0". *)
Lemma MatchPlatform_NA_target_range_matches_witness :
  wfn.Parse (targetURI ruleNARange) = Some (widget wfn.NA) /\
  value (n <- newNode (Some (leaf [ruleNARange])) ;; MatchPlatform n (platform "2.0") false) = Ok true.
Proof.
  split; [reflexivity |].
  apply (MatchPlatform_NA_target_range_matches (W := WfnModel.package)
           (leaf [ruleNARange]) ruleNARange [] (widget "-") (widget "2.0") false);
    solve [reflexivity | discriminate].
Defined.

(** C3, witness: the sample group with the range rule. *)
Lemma MatchPlatform_parses_again_witness :
  exists n : node,
    newNode (Some (leaf [ruleRange])) [] = (Ok (Some n), [uriAnyVersion]) /\
    forall (platform : option wfn.Attributes) (requireVersion : bool) (tr : list string),
    exists more : list string,
      snd (MatchPlatform (Some n) platform requireVersion tr) = tr ++ uriAnyVersion :: more.
Proof.
  apply (MatchPlatform_parses_again (W := WfnModel.package) (leaf [ruleRange]) ruleRange []).
  reflexivity.
Defined.

(** C3 at the failing input, evaluated: one construction and two queries
    hand the same identifier to the parser three times. *)
Example parses_construction_and_two_queries :
  parses (n <- newNode (Some (leaf [ruleRange])) ;;
          _ <- MatchPlatform n (platform "2.5") false ;;
          MatchPlatform n (platform "2.5") false) =
  [uriAnyVersion; uriAnyVersion; uriAnyVersion].
Proof. reflexivity. Qed.

(** C6, witness: the sample record whose entry has a French and a German
    variant. *)
Lemma ProblemTypes_english_or_last_witness :
  value (ProblemTypes (Some {| cveItem_cveItem := Some itemTwoVariants; configNodes := [] |})) =
  Ok ["CWE-79"].
Proof.
  apply (ProblemTypes_english_or_last
           {| cveItem_cveItem := Some itemTwoVariants; configNodes := [] |}
           itemTwoVariants
           {| CVEDataMeta := Some {| ID := "CVE-2019-0001" |};
              jsonschema.Description := None;
              Problemtype := Some {| ProblemtypeData := [Some {| PT_Description := twoVariants |}] |} |}
           {| ID := "CVE-2019-0001" |}
           {| ProblemtypeData := [Some {| PT_Description := twoVariants |}] |});
    solve [reflexivity | discriminate].
Defined.

(** C6, counterexample: the entry has no English variant; its first variant
    is "CWE-89", and [ProblemTypes] returns the last one, "CWE-79". *)
Lemma ProblemTypes_first_variant_counterexample :
  english twoVariants = None /\
  englishOrFirst twoVariants = "CWE-89" /\
  value (i <- newCveItem (Some itemTwoVariants) ;; ProblemTypes i) = Ok ["CWE-79"] /\
  value (i <- newCveItem (Some itemTwoVariants) ;; ProblemTypes i) <>
  Ok [englishOrFirst twoVariants].
Proof. repeat split. discriminate. Qed.

(** C7, witness: a group of a malformed and a well-formed rule. *)
Lemma CPEs_one_slot_per_rule_witness :
  value (n <- newNode (Some (leaf [ruleMalformed; ruleFixed])) ;; CPEs n) =
  Ok [None; Some (widget "2.3.1")].
Proof.
  apply (CPEs_one_slot_per_rule (W := WfnModel.package)
           (leaf [ruleMalformed; ruleFixed]) [ruleMalformed; ruleFixed]).
  reflexivity.
Defined.

(** C7, counterexample: the malformed rule is not omitted; [CPEs] returns
    two slots, the first of them absent, where omitting it would leave one. *)
Lemma CPEs_placeholder_counterexample :
  wfn.Parse (targetURI ruleMalformed) = None /\
  resolvedOnly [ruleMalformed; ruleFixed] = [Some (widget "2.3.1")] /\
  value (n <- newNode (Some (leaf [ruleMalformed; ruleFixed])) ;; CPEs n) =
  Ok [None; Some (widget "2.3.1")] /\
  value (n <- newNode (Some (leaf [ruleMalformed; ruleFixed])) ;; CPEs n) <>
  Ok (resolvedOnly [ruleMalformed; ruleFixed]).
Proof. repeat split. discriminate. Qed.

(** C8, witness: the sample record without a CVE section. *)
Lemma CVEID_Description_panic_witness :
  value (CVEID (Some {| cveItem_cveItem := Some itemNoCVE; configNodes := [] |})) = Panic /\
  value (Description (Some {| cveItem_cveItem := Some itemNoCVE; configNodes := [] |})) = Panic.
Proof.
  destruct (CVEID_Description_panic
              {| cveItem_cveItem := Some itemNoCVE; configNodes := [] |} itemNoCVE eq_refl)
    as [H1 H2].
  split; [apply H1 | apply H2]; left; reflexivity.
Defined.

(** C8 at the failing input, evaluated from construction on. *)
Example accessors_without_CVE :
  value (i <- newCveItem (Some itemNoCVE) ;; CVEID i) = Panic /\
  value (i <- newCveItem (Some itemNoCVE) ;; Description i) = Panic /\
  value (i <- newCveItem (Some itemNoCVE) ;; ProblemTypes i) = Ok [] /\
  value (i <- newCveItem (Some itemNoCVE) ;; CVSS20base i) = Ok 0%float /\
  value (i <- newCveItem (Some itemNoCVE) ;; CVSS30base i) = Ok 0%float.
Proof. repeat split. Qed.

(** C10, witness: the sample record holds a classification entry and an
    empty identifier. *)
Lemma ProblemTypes_gated_on_identity_witness :
  value (ProblemTypes (Some {| cveItem_cveItem := Some itemNoID; configNodes := [] |})) = Ok [].
Proof.
  apply (ProblemTypes_gated_on_identity
           {| cveItem_cveItem := Some itemNoID; configNodes := [] |} itemNoID eq_refl).
  right. eexists. split; [reflexivity |]. right. eexists. split; reflexivity.
Defined.

(** *** Further sample runs of the leaf matcher *)

(** A malformed rule is skipped and does not hide the matching rule after it. *)
Example MatchPlatform_parse_failure_isolated :
  value (n <- newNode (Some (leaf [ruleMalformed; ruleFixed])) ;;
         MatchPlatform n (platform "2.3.1") false) = Ok true.
Proof. reflexivity. Qed.

(** A rule without bounds on a target of version ANY is left out when the
    caller requires a version, and counts otherwise. *)
Example MatchPlatform_requireVersion :
  value (n <- newNode (Some (leaf [ruleAnyVersion])) ;;
         MatchPlatform n (platform "1.0") true) = Ok false /\
  value (n <- newNode (Some (leaf [ruleAnyVersion])) ;;
         MatchPlatform n (platform "1.0") false) = Ok true.
Proof. split; reflexivity. Qed.

(** A platform whose version is ANY or NA matches whatever the bounds. *)
Example MatchPlatform_wildcard_platform :
  value (n <- newNode (Some (leaf [ruleRange])) ;;
         MatchPlatform n (platform wfn.Any) false) = Ok true /\
  value (n <- newNode (Some (leaf [ruleRange])) ;;
         MatchPlatform n (platform wfn.NA) false) = Ok true.
Proof. split; reflexivity. Qed.

(** One OR group of a fixed-version rule and a range rule. *)
Example MatchPlatform_two_rules :
  value (n <- newNode (Some (leaf [ruleFixed; ruleRange56])) ;;
         MatchPlatform n (platform "2.3.1") false) = Ok true /\
  value (n <- newNode (Some (leaf [ruleFixed; ruleRange56])) ;;
         MatchPlatform n (platform "5.9") false) = Ok true /\
  value (n <- newNode (Some (leaf [ruleFixed; ruleRange56])) ;;
         MatchPlatform n (platform "6.0") false) = Ok false.
Proof. repeat split; reflexivity. Qed.

(** ** Further properties of the adapter *)

Section AdapterExtras.

Context {W : wfn.Package}.

(** *** The leaf matcher as a disjunction over the rules *)

Lemma MatchPlatform_loop_ruleMatches (m : NVDCVEFeedJSON10DefCPEMatch)
    (rest : list (option NVDCVEFeedJSON10DefCPEMatch))
    (p : wfn.Attributes) (rv : bool) (tr : list string) :
  MatchPlatform_loop (Some m :: rest) (Some p) rv tr =
  if ruleMatches p rv m then (Ok true, tr ++ [targetURI m])
  else MatchPlatform_loop rest (Some p) rv (tr ++ [targetURI m]).
Proof.
  cbn [MatchPlatform_loop]. unfold bind at 1. rewrite node2CPE_fresh.
  unfold ruleMatches, wildcardVersion.
  destruct (wfn.Parse (targetURI m)) as [cpe |]; [| reflexivity].
  unfold deref, bind at 1, ret at 1.
  pose proof wfn.Any_neq_NA as HAN. apply String.eqb_neq in HAN.
  destruct (hasBound m).
  - destruct (wfn.Match _ (Some p)); [| reflexivity].
    unfold bind, ret. cbn [negb andb wfn.set_Version wfn.Version].
    destruct ((wfn.Version p =? wfn.Any)%string || (wfn.Version p =? wfn.NA)%string);
      [reflexivity |].
    rewrite HAN, boundFails_boundsPass. cbn [orb].
    now destruct (boundsPass m _).
  - destruct (rv && (wfn.Version cpe =? wfn.Any)%string); [reflexivity |].
    cbn [negb andb].
    destruct (wfn.Match _ (Some p)); [| reflexivity].
    unfold bind, ret. cbn [negb].
    now destruct ((wfn.Version p =? wfn.Any)%string || (wfn.Version p =? wfn.NA)%string).
Qed.

Lemma MatchPlatform_loop_existsb (rules : list NVDCVEFeedJSON10DefCPEMatch)
    (p : wfn.Attributes) (rv : bool) (tr : list string) :
  fst (MatchPlatform_loop (map Some rules) (Some p) rv tr) =
  Ok (existsb (ruleMatches p rv) rules).
Proof.
  revert tr. induction rules as [| m rules IH]; intros tr; [reflexivity |].
  cbn [map existsb]. rewrite MatchPlatform_loop_ruleMatches.
  destruct (ruleMatches p rv m); [reflexivity | apply IH].
Qed.

Lemma MatchPlatform_existsb (n : node) (json : NVDCVEFeedJSON10DefNode)
    (rules : list NVDCVEFeedJSON10DefCPEMatch) (p : wfn.Attributes)
    (rv : bool) (tr : list string) :
  node_node n = Some json ->
  CPEMatch json = map Some rules ->
  fst (MatchPlatform (Some n) (Some p) rv tr) = Ok (existsb (ruleMatches p rv) rules).
Proof.
  intros Hn Hj. unfold MatchPlatform, deref, bind, ret. rewrite Hn, Hj.
  apply MatchPlatform_loop_existsb.
Qed.

Lemma newNode_MatchPlatform_existsb (json : NVDCVEFeedJSON10DefNode)
    (rules : list NVDCVEFeedJSON10DefCPEMatch) (p : wfn.Attributes) (rv : bool) :
  CPEMatch json = map Some rules ->
  value (n <- newNode (Some json) ;; MatchPlatform n (Some p) rv) =
  Ok (existsb (ruleMatches p rv) rules).
Proof.
  intros Hj. unfold value. rewrite (newNode_then json rules _ [] Hj).
  unfold MatchPlatform, deref, bind, ret. cbn [node_node]. rewrite Hj.
  apply MatchPlatform_loop_existsb.
Qed.

(** X10: [MatchPlatform] is the disjunction of the rules.  On a group whose rule
    entries are all present and a platform that is present it never panics,
    and it returns true exactly when some rule matches on its own: the rule's
    identifier parses and matches the platform structurally, and either the
    rule has no bound (and is not a versionless rule under [requireVersion]),
    or the platform version is ANY or NA, or every present bound passes.
    This holds for the node built by [newNode] and for any node that wraps
    the group, whatever the log held before. *)
Theorem MatchPlatform_any_rule (json : NVDCVEFeedJSON10DefNode)
    (rules : list NVDCVEFeedJSON10DefCPEMatch) (p : wfn.Attributes)
    (requireVersion : bool) :
  CPEMatch json = map Some rules ->
  value (n <- newNode (Some json) ;; MatchPlatform n (Some p) requireVersion) =
    Ok (existsb (ruleMatches p requireVersion) rules) /\
  forall (n : node) (tr : list string),
    node_node n = Some json ->
    fst (MatchPlatform (Some n) (Some p) requireVersion tr) =
    Ok (existsb (ruleMatches p requireVersion) rules).
Proof.
  intros Hj. split.
  - now apply newNode_MatchPlatform_existsb.
  - intros n tr Hn. now apply (MatchPlatform_existsb n json).
Qed.



(** X12: Rules whose identifier does not parse are ignored: the answer is the one
    for the group without them. *)
Theorem MatchPlatform_ignores_malformed (json json' : NVDCVEFeedJSON10DefNode)
    (rules : list NVDCVEFeedJSON10DefCPEMatch) (p : wfn.Attributes)
    (requireVersion : bool) :
  CPEMatch json = map Some rules ->
  CPEMatch json' =
    map Some (filter (fun m => match wfn.Parse (targetURI m) with
                               | Some _ => true
                               | None => false
                               end) rules) ->
  value (n <- newNode (Some json) ;; MatchPlatform n (Some p) requireVersion) =
  value (n <- newNode (Some json') ;; MatchPlatform n (Some p) requireVersion).
Proof.
  intros Hj Hj'.
  rewrite (newNode_MatchPlatform_existsb json rules p _ Hj).
  rewrite (newNode_MatchPlatform_existsb json' _ p _ Hj').
  f_equal. clear. induction rules as [| m rules IH]; [reflexivity |].
  cbn [filter existsb]. unfold ruleMatches at 1.
  destruct (wfn.Parse (targetURI m)) as [cpe |] eqn:E.
  - cbn [existsb]. unfold ruleMatches at 2. rewrite E. now rewrite IH.
  - exact IH.
Qed.

(** X13: Requiring a version only removes matches: whatever matches with
    [requireVersion] set matches without it. *)
Theorem MatchPlatform_requireVersion_restricts (n : node) (json : NVDCVEFeedJSON10DefNode)
    (rules : list NVDCVEFeedJSON10DefCPEMatch) (p : wfn.Attributes) :
  node_node n = Some json ->
  CPEMatch json = map Some rules ->
  value (MatchPlatform (Some n) (Some p) true) = Ok true ->
  value (MatchPlatform (Some n) (Some p) false) = Ok true.
Proof.
  intros Hn Hj. unfold value.
  rewrite !(MatchPlatform_existsb n json rules p _ [] Hn Hj).
  intros [= H]. f_equal. apply existsb_exists in H as (m & Hin & Hm).
  apply existsb_exists. exists m. split; [assumption |].
  unfold ruleMatches in *. destruct (wfn.Parse (targetURI m)); [| discriminate].
  destruct (hasBound m); [assumption |].
  apply andb_true_iff in Hm as [_ Hm]. exact Hm.
Qed.

(** X14: A platform whose version is ANY or NA is matched by any rule with a
    bound whose target matches it structurally, whatever the bounds are. *)
Theorem MatchPlatform_wildcard_ignores_bounds (n : node) (json : NVDCVEFeedJSON10DefNode)
    (rules : list NVDCVEFeedJSON10DefCPEMatch) (m : NVDCVEFeedJSON10DefCPEMatch)
    (cpe p : wfn.Attributes) (requireVersion : bool) :
  node_node n = Some json ->
  CPEMatch json = map Some rules ->
  In m rules ->
  hasBound m = true ->
  wfn.Parse (targetURI m) = Some cpe ->
  wfn.Match (Some (wfn.set_Version wfn.Any cpe)) (Some p) = true ->
  wfn.Version p = wfn.Any \/ wfn.Version p = wfn.NA ->
  value (MatchPlatform (Some n) (Some p) requireVersion) = Ok true.
Proof.
  intros Hn Hj Hin Hb Hp Hm Hv. unfold value.
  rewrite (MatchPlatform_existsb n json rules p _ [] Hn Hj). f_equal.
  apply existsb_exists. exists m. split; [assumption |].
  unfold ruleMatches, wildcardVersion. rewrite Hp, Hb, Hm.
  destruct Hv as [-> | ->]; rewrite String.eqb_refl; cbn; [reflexivity |].
  now rewrite orb_true_r.
Qed.

(** *** The parser log of a query *)

Lemma MatchPlatform_loop_rulesTried (rules : list NVDCVEFeedJSON10DefCPEMatch)
    (p : wfn.Attributes) (rv : bool) (tr : list string) :
  snd (MatchPlatform_loop (map Some rules) (Some p) rv tr) =
  tr ++ map targetURI (rulesTried p rv rules).
Proof.
  revert tr. induction rules as [| m rules IH]; intros tr.
  - cbn. now rewrite app_nil_r.
  - cbn [map rulesTried]. rewrite MatchPlatform_loop_ruleMatches.
    destruct (ruleMatches p rv m); [reflexivity |].
    rewrite IH, <- app_assoc. reflexivity.
Qed.

(** X15: A query hands the identifiers of the rules to the parser in the order
    of the rules, one call per rule, and stops after the first rule that
    matches: the rules behind it are not parsed, and a query without a match
    parses every rule once. *)
Theorem MatchPlatform_parser_log (n : node) (json : NVDCVEFeedJSON10DefNode)
    (rules : list NVDCVEFeedJSON10DefCPEMatch) (p : wfn.Attributes)
    (requireVersion : bool) (tr : list string) :
  node_node n = Some json ->
  CPEMatch json = map Some rules ->
  snd (MatchPlatform (Some n) (Some p) requireVersion tr) =
    tr ++ map targetURI (rulesTried p requireVersion rules) /\
  (length (rulesTried p requireVersion rules) <= length rules)%nat /\
  (fst (MatchPlatform (Some n) (Some p) requireVersion tr) = Ok false ->
   rulesTried p requireVersion rules = rules).
Proof.
  intros Hn Hj. split; [| split].
  - unfold MatchPlatform, deref, bind, ret. rewrite Hn, Hj.
    apply MatchPlatform_loop_rulesTried.
  - clear. induction rules as [| m rules IH]; cbn [rulesTried length]; [lia |].
    destruct (ruleMatches p requireVersion m); cbn [length]; lia.
  - rewrite (MatchPlatform_existsb n json rules p _ tr Hn Hj). intros [= H].
    clear - H. induction rules as [| m rules IH]; [reflexivity |].
    cbn [existsb rulesTried] in *. apply orb_false_iff in H as [-> H].
    now rewrite (IH H).
Qed.

(** *** The cache of [node2CPE] *)

(** X16: [node2CPE] caches a success and not a failure.  Called again on the
    wrapper its first call left behind, it returns the same result; it does
    so without calling the parser when the identifier parsed, and by parsing
    the identifier once more when it did not. *)
Theorem node2CPE_again (m : NVDCVEFeedJSON10DefCPEMatch) (tr : list string) :
  exists (w : option cpeMatch) (r : error + wfn.Attributes),
    node2CPE (Some {| cpeMatch_cpeMatch := Some m; wfname := None |}) tr =
      (Ok (w, r), tr ++ [targetURI m]) /\
    node2CPE w (tr ++ [targetURI m]) =
      (Ok (w, r),
       match wfn.Parse (targetURI m) with
       | Some _ => tr ++ [targetURI m]
       | None => tr ++ [targetURI m; targetURI m]
       end).
Proof.
  do 2 eexists. split; [apply node2CPE_fresh |].
  destruct (wfn.Parse (targetURI m)) as [a |] eqn:E.
  - reflexivity.
  - rewrite node2CPE_fresh, E, <- app_assoc. reflexivity.
Qed.

(** *** Construction of a record *)

Lemma newNode_allPresent (nd : NVDCVEFeedJSON10DefNode) (tr : list string) :
  allPresent (CPEMatch nd) ->
  newNode (Some nd) tr = (Ok (builtNode nd), tr ++ map targetURI (somes (CPEMatch nd))).
Proof.
  intros H. apply (newNode_present nd (somes (CPEMatch nd)) tr H).
Qed.

Lemma mapM_newNode (nodes : list NVDCVEFeedJSON10DefNode) (tr : list string) :
  Forall (fun nd => allPresent (CPEMatch nd)) nodes ->
  mapM newNode (map Some nodes) tr =
  (Ok (map builtNode nodes),
   tr ++ flat_map (fun nd => map targetURI (somes (CPEMatch nd))) nodes).
Proof.
  intros H. revert tr. induction H as [| nd nodes Hnd _ IH]; intros tr.
  - cbn. unfold ret. now rewrite app_nil_r.
  - cbn [map mapM flat_map]. unfold bind at 1. rewrite (newNode_allPresent nd tr Hnd).
    unfold bind at 1. rewrite IH. unfold ret. now rewrite <- app_assoc.
Qed.

(** X17: [newCveItem] builds one configuration root per top-level group of the
    raw record, in order, and [Config] returns them.  Construction parses the
    identifiers of the rules of the top-level groups, each once and in order,
    and no others: the rules of nested groups are not parsed. *)
Theorem newCveItem_roots (j : NVDCVEFeedJSON10DefCVEItem)
    (c : NVDCVEFeedJSON10DefConfigurations) (nodes : list NVDCVEFeedJSON10DefNode) :
  Configurations j = Some c ->
  Nodes c = map Some nodes ->
  Forall (fun nd => allPresent (CPEMatch nd)) nodes ->
  value (i <- newCveItem (Some j) ;; Config i) = Ok (map builtNode nodes) /\
  parses (newCveItem (Some j)) =
    flat_map (fun nd => map targetURI (somes (CPEMatch nd))) nodes.
Proof.
  intros Hc Hn Hall.
  assert (newCveItem (Some j) [] =
          (Ok (Some {| cveItem_cveItem := Some j; configNodes := map builtNode nodes |}),
           flat_map (fun nd => map targetURI (somes (CPEMatch nd))) nodes)) as E.
  { unfold newCveItem, bind, deref, ret. rewrite Hc, Hn.
    now rewrite (mapM_newNode nodes [] Hall). }
  unfold value, parses, bind. rewrite E. split; reflexivity.
Qed.

(** *** Negation *)

(** X18: [NegateIfNeeded] is its own inverse on every node that wraps a group. *)
Theorem NegateIfNeeded_involutive (n : node) (json : NVDCVEFeedJSON10DefNode) (b : bool) :
  node_node n = Some json ->
  value (b' <- NegateIfNeeded (Some n) b ;; NegateIfNeeded (Some n) b') = Ok b.
Proof.
  intros Hn. unfold value, NegateIfNeeded, deref, bind, ret. rewrite Hn.
  destruct (Negate json), b; reflexivity.
Qed.

(** *** Nodes that were wrapped and not built *)

Lemma MatchPlatform_loop_decision (m : NVDCVEFeedJSON10DefCPEMatch)
    (rest : list (option NVDCVEFeedJSON10DefCPEMatch))
    (platform : option wfn.Attributes) (rv : bool) :
  (forall tr, MatchPlatform_loop (Some m :: rest) platform rv tr =
              MatchPlatform_loop rest platform rv (tr ++ [targetURI m])) \/
  exists o, forall tr,
    MatchPlatform_loop (Some m :: rest) platform rv tr = (o, tr ++ [targetURI m]).
Proof.
  evar (K : Go bool).
  assert (forall tr, MatchPlatform_loop (Some m :: rest) platform rv tr =
                     K (tr ++ [targetURI m])) as H.
  { intros tr. cbn [MatchPlatform_loop]. unfold bind at 1. rewrite node2CPE_fresh.
    unfold K. reflexivity. }
  unfold K in H. clear K.
  destruct (wfn.Parse (targetURI m)) as [cpe |]; [| now left].
  unfold deref, bind, ret in H.
  destruct platform as [p |];
    repeat match type of H with
           | context [if ?c then _ else _] => destruct c
           end;
    first [ now left | right; eexists; exact H ].
Qed.

Lemma MatchPlatform_loop_log_irrelevant (rules : list NVDCVEFeedJSON10DefCPEMatch)
    (platform : option wfn.Attributes) (rv : bool) (tr tr' : list string) :
  fst (MatchPlatform_loop (map Some rules) platform rv tr) =
  fst (MatchPlatform_loop (map Some rules) platform rv tr').
Proof.
  revert tr tr'. induction rules as [| m rules IH]; intros tr tr'; [reflexivity |].
  cbn [map].
  destruct (MatchPlatform_loop_decision m (map Some rules) platform rv) as [E | [o E]];
    rewrite (E tr), (E tr'); [apply IH | reflexivity].
Qed.

(** X19: The leaf matcher reads the raw group alone.  A child node, which
    [newNode] wraps without building, therefore answers [MatchPlatform]
    exactly as the node [newNode] builds from the same raw group, for every
    platform, present or not. *)
Theorem MatchPlatform_unbuilt_child (json : NVDCVEFeedJSON10DefNode)
    (rules : list NVDCVEFeedJSON10DefCPEMatch)
    (platform : option wfn.Attributes) (requireVersion : bool) :
  CPEMatch json = map Some rules ->
  value (MatchPlatform (newNode_child (Some json)) platform requireVersion) =
  value (n <- newNode (Some json) ;; MatchPlatform n platform requireVersion).
Proof.
  intros Hj. unfold value. rewrite (newNode_then json rules _ [] Hj).
  unfold newNode_child, MatchPlatform, deref, bind, ret. cbn [node_node]. rewrite Hj.
  apply MatchPlatform_loop_log_irrelevant.
Qed.

End AdapterExtras.

(** *** Concrete runs of the further properties *)

Import MoreSamples.

(** X10, witness. *)
Lemma MatchPlatform_any_rule_witness :
  value (n <- newNode (Some (leaf [ruleMalformed; ruleRange])) ;;
         MatchPlatform n (platform "2.5") false) =
  Ok (existsb (ruleMatches (widget "2.5") false) [ruleMalformed; ruleRange]).
Proof.
  apply (proj1 (MatchPlatform_any_rule (W := WfnModel.package)
                  (leaf [ruleMalformed; ruleRange]) [ruleMalformed; ruleRange]
                  (widget "2.5") false eq_refl)).
Defined.


(** X12, witness. *)
Lemma MatchPlatform_ignores_malformed_witness :
  value (n <- newNode (Some (leaf [ruleMalformed; ruleFixed])) ;;
         MatchPlatform n (platform "2.3.1") false) =
  value (n <- newNode (Some (leaf [ruleFixed])) ;;
         MatchPlatform n (platform "2.3.1") false).
Proof.
  apply (MatchPlatform_ignores_malformed (W := WfnModel.package)
           (leaf [ruleMalformed; ruleFixed]) (leaf [ruleFixed])
           [ruleMalformed; ruleFixed] (widget "2.3.1") false);
    reflexivity.
Defined.

(** X13, witness. *)
Lemma MatchPlatform_requireVersion_restricts_witness :
  value (MatchPlatform (Some (wrap (leaf [ruleFixed]))) (platform "2.3.1") false) = Ok true.
Proof.
  apply (MatchPlatform_requireVersion_restricts (W := WfnModel.package)
           (wrap (leaf [ruleFixed])) (leaf [ruleFixed]) [ruleFixed] (widget "2.3.1"));
    reflexivity.
Defined.

(** X14, witness. *)
Lemma MatchPlatform_wildcard_ignores_bounds_witness :
  boundsPass ruleRange (wfn.StripSlashes wfn.NA) = false /\
  value (MatchPlatform (Some (wrap (leaf [ruleRange]))) (platform wfn.NA) true) = Ok true.
Proof.
  split; [reflexivity |].
  apply (MatchPlatform_wildcard_ignores_bounds (W := WfnModel.package)
           (wrap (leaf [ruleRange])) (leaf [ruleRange]) [ruleRange] ruleRange
           (widget "") (widget "-") true);
    try reflexivity; [left; reflexivity | right; reflexivity].
Defined.

(** X15, witness. *)
Lemma MatchPlatform_parser_log_witness :
  snd (MatchPlatform (Some (wrap (leaf [ruleFixed; ruleRange56; ruleRange])))
         (platform "5.9") false []) =
  [uriFixed; uriAnyVersion].
Proof.
  exact (proj1 (MatchPlatform_parser_log (W := WfnModel.package)
                  (wrap (leaf [ruleFixed; ruleRange56; ruleRange]))
                  (leaf [ruleFixed; ruleRange56; ruleRange])
                  [ruleFixed; ruleRange56; ruleRange] (widget "5.9") false []
                  eq_refl eq_refl)).
Defined.

(** X17, witness. *)
Lemma newCveItem_roots_witness :
  value (i <- newCveItem (Some itemTwoRoots) ;; Config i) =
    Ok [builtNode root; builtNode (leaf [ruleMalformed; ruleFixed])] /\
  parses (newCveItem (Some itemTwoRoots)) = [uriMalformed; uriFixed].
Proof.
  apply (newCveItem_roots (W := WfnModel.package) itemTwoRoots
           {| Nodes := [Some root; Some (leaf [ruleMalformed; ruleFixed])] |}
           [root; leaf [ruleMalformed; ruleFixed]]);
    [reflexivity | reflexivity | repeat constructor].
Defined.

(** X18, witness. *)
Lemma NegateIfNeeded_involutive_witness :
  value (NegateIfNeeded (Some (wrap negated)) true) = Ok false /\
  value (b' <- NegateIfNeeded (Some (wrap negated)) true ;;
         NegateIfNeeded (Some (wrap negated)) b') = Ok true.
Proof.
  split; [reflexivity |].
  apply (NegateIfNeeded_involutive (wrap negated) negated true). reflexivity.
Defined.

(** X19, witness. *)
Lemma MatchPlatform_unbuilt_child_witness :
  value (MatchPlatform (newNode_child (Some child)) (platform "2.5") false) =
  value (n <- newNode (Some child) ;; MatchPlatform n (platform "2.5") false).
Proof.
  apply (MatchPlatform_unbuilt_child (W := WfnModel.package) child [ruleRange]
           (platform "2.5") false).
  reflexivity.
Defined.

(** ** Panics and the accessors of a record *)

Section PanicFacts.

Context {W : wfn.Package}.

Lemma MatchPlatform_loop_app (rules : list NVDCVEFeedJSON10DefCPEMatch)
    (rest : list (option NVDCVEFeedJSON10DefCPEMatch))
    (p : wfn.Attributes) (rv : bool) (tr : list string) :
  existsb (ruleMatches p rv) rules = false ->
  MatchPlatform_loop (map Some rules ++ rest) (Some p) rv tr =
  MatchPlatform_loop rest (Some p) rv (tr ++ map targetURI rules).
Proof.
  revert tr. induction rules as [| m rules IH]; intros tr H.
  - cbn. now rewrite app_nil_r.
  - cbn [existsb] in H. apply orb_false_iff in H as [Hm H].
    cbn [map app]. rewrite MatchPlatform_loop_ruleMatches, Hm, (IH _ H), <- app_assoc.
    reflexivity.
Qed.

(** X20: A [nil] rule entry makes a query panic as soon as the loop reaches it:
    when no rule before the entry matches the platform, [MatchPlatform]
    dereferences the entry. *)
Theorem MatchPlatform_nil_rule_panics (n : node) (json : NVDCVEFeedJSON10DefNode)
    (rules : list NVDCVEFeedJSON10DefCPEMatch)
    (rest : list (option NVDCVEFeedJSON10DefCPEMatch))
    (p : wfn.Attributes) (requireVersion : bool) :
  node_node n = Some json ->
  CPEMatch json = map Some rules ++ None :: rest ->
  existsb (ruleMatches p requireVersion) rules = false ->
  value (MatchPlatform (Some n) (Some p) requireVersion) = Panic.
Proof.
  intros Hn Hj H. unfold value, MatchPlatform, deref, bind, ret. rewrite Hn, Hj.
  change (fst (MatchPlatform_loop (map Some rules ++ None :: rest) (Some p) requireVersion []) = Panic).
  now rewrite (MatchPlatform_loop_app rules (None :: rest) p requireVersion [] H).
Qed.

Lemma mapM_newNode_cpe_nil (l : list (option NVDCVEFeedJSON10DefCPEMatch)) (tr : list string) :
  In None l -> fst (mapM newNode_cpe l tr) = Panic.
Proof.
  revert tr. induction l as [| [m |] l IH]; intros tr Hin; [destruct Hin | |].
  - destruct Hin as [Hin | Hin]; [discriminate |].
    cbn [mapM]. unfold bind at 1. rewrite newNode_cpe_present.
    unfold bind at 1. specialize (IH (tr ++ [targetURI m]) Hin).
    destruct (mapM newNode_cpe l (tr ++ [targetURI m])) as [[bs |] tr']; [discriminate | reflexivity].
  - reflexivity.
Qed.

(** X21: A [nil] rule entry makes construction panic: [newNode] dereferences
    every rule entry of the group it is given. *)
Theorem newNode_nil_rule_panics (json : NVDCVEFeedJSON10DefNode) :
  In None (CPEMatch json) ->
  value (newNode (Some json)) = Panic.
Proof.
  intros Hin. unfold value, newNode, deref, bind at 1, ret at 1. unfold bind.
  pose proof (mapM_newNode_cpe_nil (CPEMatch json) [] Hin) as H.
  destruct (mapM newNode_cpe (CPEMatch json) []) as [[bs |] tr']; [discriminate | reflexivity].
Qed.

End PanicFacts.

(** X22: [Description] returns the value of the first description entry,
    whatever its language: it does not look for an English one. *)
Theorem Description_first_entry (it : cveItem) (j : NVDCVEFeedJSON10DefCVEItem)
    (cve : CVEJSON40) (d : CVEJSON40Description) (ls : CVEJSON40LangString)
    (rest : list (option CVEJSON40LangString)) :
  cveItem_cveItem it = Some j ->
  CVE j = Some cve ->
  jsonschema.Description cve = Some d ->
  DescriptionData d = Some ls :: rest ->
  value (Description (Some it)) = Ok (Value ls).
Proof.
  intros Hj Hc Hd Hl. unfold Description. go_simpl.
  go_with Hj. go_with Hc. go_with Hd. go_with Hl. reflexivity.
Qed.

(** X23: [ProblemTypes], [CVSS20base] and [CVSS30base] test every pointer they
    follow: on an item that wraps a raw record they never panic, whatever
    sections and entries of the record are absent. *)
Theorem guarded_accessors_never_panic (it : cveItem) (j : NVDCVEFeedJSON10DefCVEItem) :
  cveItem_cveItem it = Some j ->
  (exists cwes, value (ProblemTypes (Some it)) = Ok cwes) /\
  (exists s, value (CVSS20base (Some it)) = Ok s) /\
  (exists s, value (CVSS30base (Some it)) = Ok s).
Proof.
  intros Hj. unfold ProblemTypes, CVSS20base, CVSS30base. go_simpl. go_with Hj.
  repeat split.
  - destruct (CVE j) as [cve |]; [| now eexists].
    destruct (CVEDataMeta cve) as [meta |]; [| now eexists].
    destruct (ID meta =? "")%string; [now eexists |].
    destruct (Problemtype cve); now eexists.
  - destruct (Impact j) as [im |]; [| now eexists].
    destruct (BaseMetricV2 im) as [bm |]; [| now eexists].
    destruct (CVSSV2 bm); now eexists.
  - destruct (Impact j) as [im |]; [| now eexists].
    destruct (BaseMetricV3 im) as [bm |]; [| now eexists].
    destruct (CVSSV3 bm); now eexists.
Qed.

Import RecordSamples.

(** X20, witness. *)
Lemma MatchPlatform_nil_rule_panics_witness :
  value (MatchPlatform (Some (wrap groupNilRule)) (platform "3.0") false) = Panic.
Proof.
  apply (MatchPlatform_nil_rule_panics (W := WfnModel.package)
           (wrap groupNilRule) groupNilRule [ruleRange] [] (widget "3.0") false);
    reflexivity.
Defined.

(** X21, witness. *)
Lemma newNode_nil_rule_panics_witness :
  value (newNode (Some groupNilRule)) = Panic.
Proof.
  apply (newNode_nil_rule_panics (W := WfnModel.package) groupNilRule).
  right. left. reflexivity.
Defined.

(** X22, witness. *)
Lemma Description_first_entry_witness :
  value (Description (Some {| cveItem_cveItem := Some itemFrenchFirst; configNodes := [] |})) =
  Ok "Debordement de tampon".
Proof.
  apply (Description_first_entry
           {| cveItem_cveItem := Some itemFrenchFirst; configNodes := [] |} itemFrenchFirst
           {| CVEDataMeta := Some {| ID := "CVE-2019-0002" |};
              jsonschema.Description :=
                Some {| DescriptionData := [lang "fr" "Debordement de tampon";
                                            lang "en" "Buffer overflow"] |};
              Problemtype := None |}
           {| DescriptionData := [lang "fr" "Debordement de tampon"; lang "en" "Buffer overflow"] |}
           {| Lang := "fr"; Value := "Debordement de tampon" |}
           [lang "en" "Buffer overflow"]);
    reflexivity.
Defined.

(** X23, witness. *)
Lemma guarded_accessors_never_panic_witness :
  (exists cwes, value (ProblemTypes (Some {| cveItem_cveItem := Some itemNoCVE; configNodes := [] |})) = Ok cwes) /\
  (exists s, value (CVSS20base (Some {| cveItem_cveItem := Some itemNoCVE; configNodes := [] |})) = Ok s) /\
  (exists s, value (CVSS30base (Some {| cveItem_cveItem := Some itemNoCVE; configNodes := [] |})) = Ok s).
Proof.
  apply (guarded_accessors_never_panic
           {| cveItem_cveItem := Some itemNoCVE; configNodes := [] |} itemNoCVE).
  reflexivity.
Defined.
